(** * IMPACT: near-Earth-object impact visualisation ([nasa.py])

    A shallow embedding of the core of [nasa.py]: the impact-effect
    calculator [calculate_impact_effects] and the map builder
    [create_impact_map] (flattening, ranking, site assignment, overlays and
    printed report).

    Numbers.  Python's [float] and [int] values are embedded as exact
    numbers: the JSON numbers and coordinates as rationals ([Q]), the
    results of the physics formulas, which involve [math.pi] and fractional
    powers, as reals ([R]).  IEEE-754 rounding, overflow, infinities and NaN
    are outside this embedding; every statement below is about the exact
    arithmetic the formulas denote. *)

From Stdlib Require Import Reals Machin Lra QArith Qreals List String Ascii Bool Arith
  Lia Permutation Sorted DecimalString.
Import ListNotations.

(** * Python numbers produced by the calculator *)

Module PyNum.

Local Open Scope R_scope.

(** A Python number: a [float], or the [complex] that [**] returns for a
    negative base and a fractional exponent. *)
Inductive pynum : Type :=
| PyFloat (x : R)
| PyComplex (re im : R).

(** [complex(a)] *)
Definition to_complex (a : pynum) : R * R :=
  match a with
  | PyFloat x => (x, 0)
  | PyComplex re im => (re, im)
  end.

(** [a * b]: float product, or the complex product once either side is
    complex. *)
Definition py_mul (a b : pynum) : pynum :=
  match a, b with
  | PyFloat x, PyFloat y => PyFloat (x * y)
  | _, _ =>
      let (ar, ai) := to_complex a in
      let (br, bi) := to_complex b in
      PyComplex (ar * br - ai * bi) (ar * bi + ai * br)
  end.

(** [x ** y] for a float [x] and a positive, non-integral float literal [y]
    (0.43 and 0.33 in the source).  A positive base gives [exp (y * ln x)];
    a zero base gives 0.0; a negative base is handed to the complex power,
    which returns [|x|**y * (cos (pi*y) + sin (pi*y) j)]. *)
Definition float_pow (x y : R) : pynum :=
  if Rlt_dec 0 x then PyFloat (Rpower x y)
  else if Rlt_dec x 0 then
    PyComplex (Rpower (- x) y * cos (PI * y)) (Rpower (- x) y * sin (PI * y))
  else PyFloat 0.

End PyNum.
Export PyNum.

(** * The impact-effect calculator *)

Module Calculator.

Local Open Scope R_scope.

(** The dictionary returned by [calculate_impact_effects]; its five keys are
    fixed, so it is a record.  [energy_megatons] is built from integer powers
    only and is always a float. *)
Record impact_effects : Type := {
  crater_diameter : pynum;
  energy_megatons : R;
  severe_damage_radius : pynum;
  moderate_damage_radius : pynum;
  light_damage_radius : pynum
}.

Definition calculate_impact_effects (diameter_km velocity_kmps : R) : impact_effects :=
  let crater_diameter :=
    py_mul (PyFloat (diameter_km * 20)) (float_pow (velocity_kmps / 17) 0.43) in
  let mass := (4 / 3) * PI * (diameter_km * 500) ^ 3 * 2500 in
  let energy_joules := 0.5 * mass * (velocity_kmps * 1000) ^ 2 in
  let energy_megatons := energy_joules / 4.184e15 in
  let severe_damage := py_mul (float_pow energy_megatons 0.33) (PyFloat 2.2) in
  let moderate_damage := py_mul (float_pow energy_megatons 0.33) (PyFloat 5.5) in
  let light_damage := py_mul (float_pow energy_megatons 0.33) (PyFloat 15) in
  {| crater_diameter := crater_diameter;
     energy_megatons := energy_megatons;
     severe_damage_radius := severe_damage;
     moderate_damage_radius := moderate_damage;
     light_damage_radius := light_damage |}.

End Calculator.
Export Calculator.

(** * Python values and the builtins the map builder uses *)

Module Py.

(** A decoded JSON document, as [response.json()] returns it: [None],
    [bool], a number, [str], [list], or a [dict] in insertion order (the
    order [.items()] iterates in).  A number is kept as its value: [int]
    and [float] are not told apart.  A dictionary is the association list of
    its items; Python dictionaries have no duplicate keys, and lookup takes
    the first binding. *)
#[local] Unset Elimination Schemes.
Inductive json : Type :=
| JNull
| JBool (b : bool)
| JNum (q : Q)
| JStr (s : string)
| JList (l : list json)
| JDict (kvs : list (string * json)).
#[local] Set Elimination Schemes.

(** The exceptions the core can raise. *)
Inductive exn : Type :=
| KeyError
| IndexError
| TypeError
| ValueError
| AttributeError.

Inductive result (A : Type) : Type :=
| Ok (a : A)
| Raise (e : exn).
Arguments Ok {A} a.
Arguments Raise {A} e.

(** Code that may raise and may print: it maps the text printed so far to
    its outcome and the text printed after it.  An exception keeps what was
    printed before it. *)
Definition io (A : Type) : Type := list string -> result A * list string.

Class Monad (m : Type -> Type) : Type := {
  ret : forall {A}, A -> m A;
  bind : forall {A B}, m A -> (A -> m B) -> m B
}.

#[export] Instance Monad_result : Monad result := {
  ret := fun A a => Ok a;
  bind := fun A B c k => match c with Ok a => k a | Raise e => Raise e end
}.

#[export] Instance Monad_io : Monad io := {
  ret := fun A a out => (Ok a, out);
  bind := fun A B c k out =>
    match c out with
    | (Ok a, out') => k a out'
    | (Raise e, out') => (Raise e, out')
    end
}.

Notation "x <- c ;; k" := (bind c (fun x => k))
  (at level 61, c at next level, right associativity).
Notation "c ;; k" := (bind c (fun _ => k))
  (at level 61, right associativity).

(** A computation that only returns or raises, run where printing is
    possible. *)
Definition lift {A : Type} (r : result A) : io A := fun out => (r, out).

(** [print(s)]: one more entry of the printed text. *)
Definition print (s : string) : io unit := fun out => (Ok tt, out ++ [s]).

(** [c] prints [text] and ends as [r], whatever was printed before it. *)
Definition appends {A : Type} (c : io A) (r : result A) (text : list string) : Prop :=
  forall out, c out = (r, out ++ text).

(** [bool(v)] *)
Definition truthy (v : json) : bool :=
  match v with
  | JNull => false
  | JBool b => b
  | JNum q => negb (Qeq_bool q 0)
  | JStr s => negb (String.eqb s EmptyString)
  | JList l => negb (Nat.eqb (List.length l) 0)
  | JDict kvs => negb (Nat.eqb (List.length kvs) 0)
  end.

Fixpoint dict_get (k : string) (kvs : list (string * json)) : option json :=
  match kvs with
  | [] => None
  | (k', v) :: rest => if String.eqb k k' then Some v else dict_get k rest
  end.

(** [v[k]] for a string key [k] *)
Definition getitem (v : json) (k : string) : result json :=
  match v with
  | JDict kvs =>
      match dict_get k kvs with
      | Some x => Ok x
      | None => Raise KeyError
      end
  | _ => Raise TypeError
  end.

(** [v[0]]: the first element of a list or the first character of a string;
    on a dictionary the integer 0 is looked up as a key, and JSON keys are
    strings. *)
Definition getitem0 (v : json) : result json :=
  match v with
  | JList (x :: _) => Ok x
  | JList [] => Raise IndexError
  | JStr (String c _) => Ok (JStr (String c EmptyString))
  | JStr EmptyString => Raise IndexError
  | JDict _ => Raise KeyError
  | _ => Raise TypeError
  end.

Definition is_str (k : string) (v : json) : bool :=
  match v with
  | JStr s => String.eqb s k
  | _ => false
  end.

(** [k in v] for a string [k]: a key of a dictionary, an element of a list,
    a substring of a string. *)
Definition contains (v : json) (k : string) : result bool :=
  match v with
  | JDict kvs => Ok (existsb (fun kv => String.eqb k (fst kv)) kvs)
  | JList l => Ok (existsb (is_str k) l)
  | JStr s => Ok (match String.index 0 k s with Some _ => true | None => false end)
  | _ => Raise TypeError
  end.

(** [v.items()] *)
Definition items (v : json) : result (list (string * json)) :=
  match v with
  | JDict kvs => Ok kvs
  | _ => Raise AttributeError
  end.

Fixpoint chars (s : string) : list json :=
  match s with
  | EmptyString => []
  | String c rest => JStr (String c EmptyString) :: chars rest
  end.

(** [iter(v)], as [list.extend(v)] consumes it: the elements of a list, the
    keys of a dictionary, the characters of a string. *)
Definition iterate (v : json) : result (list json) :=
  match v with
  | JList l => Ok l
  | JDict kvs => Ok (map (fun kv => JStr (fst kv)) kvs)
  | JStr s => Ok (chars s)
  | _ => Raise TypeError
  end.

(** The value of [v] in arithmetic: [int], [float] and [bool] are numbers. *)
Definition as_number (v : json) : option Q :=
  match v with
  | JNum q => Some q
  | JBool b => Some (if b then 1 else 0)%Q
  | _ => None
  end.

Definition as_string (v : json) : option string :=
  match v with
  | JStr s => Some s
  | _ => None
  end.

Fixpoint traverse {A B : Type} (f : A -> option B) (l : list A) : option (list B) :=
  match l with
  | [] => Some []
  | x :: rest =>
      match f x, traverse f rest with
      | Some y, Some ys => Some (y :: ys)
      | _, _ => None
      end
  end.

Fixpoint mapM {A B : Type} (f : A -> result B) (l : list A) : result (list B) :=
  match l with
  | [] => Ok []
  | x :: rest => y <- f x ;; ys <- mapM f rest ;; Ok (y :: ys)
  end.

(** The builtins whose results are strings or come from strings: they are
    parameters of the embedding.
    - [float_of_str s] is [float(s)] for a string, [None] where Python raises
      [ValueError];
    - [format_number spec x] is [format(x, spec)] for a number, with [spec]
      one of [.1f], [.2f], [.3f] and [,.0f];
    - [repr_of v] is [str(v)] for a value that is not a string. *)
Class Builtins : Type := {
  float_of_str : string -> option Q;
  format_number : string -> pynum -> string;
  repr_of : json -> string
}.

(** [float(v)] *)
Definition py_float `{Builtins} (v : json) : result Q :=
  match v with
  | JNum q => Ok q
  | JBool b => Ok (if b then 1 else 0)%Q
  | JStr s =>
      match float_of_str s with
      | Some q => Ok q
      | None => Raise ValueError
      end
  | _ => Raise TypeError
  end.

(** [f"{v}"] *)
Definition py_str `{Builtins} (v : json) : string :=
  match v with
  | JStr s => s
  | _ => repr_of v
  end.

(** [str(n)] for a non-negative [int] *)
Definition str_of_nat (n : nat) : string :=
  NilEmpty.string_of_uint (Nat.to_uint n).

End Py.
Export Py.

(** * Sorting: [list.sort(key=..., reverse=True)] *)

Module Sorting.

(** [x < y] on numbers *)
Definition Qltb (x y : Q) : bool := negb (Qle_bool y x).

Section Sort.

Context {K A : Type} (ltb : K -> K -> bool).

(** [list.sort] computes the key of every element first and then orders the
    (key, element) pairs with [<] on the keys alone.  The sort is stable, and
    with [reverse=True] it stays stable: elements whose keys are equal keep
    their order.  For keys in a strict weak order the result is determined
    by that; the simplest function computing it inserts each element, from
    the right, after the elements with a strictly larger key. *)
Fixpoint insert_desc (x : K * A) (l : list (K * A)) : list (K * A) :=
  match l with
  | [] => [x]
  | y :: rest => if ltb (fst x) (fst y) then y :: insert_desc x rest else x :: l
  end.

Definition sort_desc (l : list (K * A)) : list (K * A) :=
  fold_right insert_desc [] l.

(** [a] may stand before [b] in the sorted list: [a]'s key is not smaller. *)
Definition not_below (a b : K * A) : Prop := ltb (fst a) (fst b) = false.

End Sort.

(** The sort on precomputed keys.  With fewer than two elements nothing is
    compared.  Otherwise numbers are compared as numbers and strings as
    strings; [None], dictionaries and keys of different kinds do not
    support [<] and the sort raises [TypeError].  (Python orders lists
    element by element; list-valued keys are not ordered here and are
    reported as [TypeError] too.) *)
Definition sort_reverse {A : Type} (keys : list json) (l : list A) : result (list A) :=
  if Nat.ltb (List.length l) 2 then Ok l
  else
    match traverse as_number keys with
    | Some qs => Ok (map snd (sort_desc Qltb (combine qs l)))
    | None =>
        match traverse as_string keys with
        | Some ss => Ok (map snd (sort_desc String.ltb (combine ss l)))
        | None => Raise TypeError
        end
    end.

(** The element [p] has diameter [q]. *)
Definition same_diameter {A : Type} (q : Q) (p : Q * A) : bool := Qeq_bool (fst p) q.

(** The ranking the specification asks for: [s] is a stable sort of [l] by
    diameter, descending.  It has the elements of [l], its diameters never
    increase, and the elements of any one diameter stand in it as they stand
    in [l]. *)
Definition stable_sort_desc {A : Type} (l s : list (Q * A)) : Prop :=
  Permutation s l
  /\ StronglySorted (fun a b => (fst b <= fst a)%Q) s
  /\ forall q, filter (same_diameter q) s = filter (same_diameter q) l.

End Sorting.
Export Sorting.

(** * The map and its overlays *)

Module Folium.

(** [folium.Popup(html, max_width=...)] *)
Record Popup : Type := {
  html : string;
  max_width : nat
}.

(** [folium.Icon(color=..., icon=..., prefix=...)] *)
Record Icon : Type := {
  icon_color : string;
  icon : string;
  prefix : string
}.

(** What is added to the map: a [folium.Circle] or a [folium.Marker], with
    the arguments it was built from. *)
Inductive overlay : Type :=
| Circle (location : Q * Q) (radius : pynum) (color : string) (fill : bool)
         (fillColor : string) (fillOpacity : Q) (popup : option Popup)
         (tooltip : string)
| Marker (location : Q * Q) (popup : Popup) (icon : Icon) (tooltip : string).

(** [folium.Map(location=..., zoom_start=...)] and the overlays added to it,
    in the order of the [add_to] calls. *)
Record Map : Type := {
  map_location : Q * Q;
  zoom_start : nat;
  children : list overlay
}.

Definition add_to (o : overlay) (m : Map) : Map :=
  {| map_location := map_location m;
     zoom_start := zoom_start m;
     children := children m ++ [o] |}.

End Folium.
Export Folium.

(** * The map builder: [create_impact_map] *)

Module MapBuilder.

Local Open Scope string_scope.

(** The line feed and the double quote of the string literals. *)
Definition nl : string := String (ascii_of_nat 10) EmptyString.
Definition dq : string := String (ascii_of_nat 34) EmptyString.

(** One subscript of a chain [x[k1][k2]...]: a string key or the index 0. *)
Inductive step : Type :=
| Key (k : string)
| Index0.

Definition subscript (v : json) (st : step) : result json :=
  match st with
  | Key k => getitem v k
  | Index0 => getitem0 v
  end.

(** [v[s1][s2]...[sn]], evaluated left to right. *)
Fixpoint lookup (path : list step) (v : json) : result json :=
  match path with
  | [] => Ok v
  | st :: rest => x <- subscript v st ;; lookup rest x
  end.

Definition name_path : list step := [Key "name"].
Definition diameter_path : list step :=
  [Key "estimated_diameter"; Key "kilometers"; Key "estimated_diameter_max"].
Definition velocity_path : list step :=
  [Key "close_approach_data"; Index0; Key "relative_velocity";
   Key "kilometers_per_second"].
Definition miss_distance_path : list step :=
  [Key "close_approach_data"; Index0; Key "miss_distance"; Key "kilometers"].
Definition hazardous_path : list step := [Key "is_potentially_hazardous_asteroid"].

(** The chains of keys a record is read through. *)
Definition required_paths : list (list step) :=
  [name_path; diameter_path; velocity_path; miss_distance_path; hazardous_path].

(** The sort key: [lambda x: x["estimated_diameter"]["kilometers"]["estimated_diameter_max"]] *)
Definition sort_key (x : json) : result json := lookup diameter_path x.

(** [for date, objects in neo_data["near_earth_objects"].items():
       all_neos.extend(objects)] *)
Fixpoint extend_all (buckets : list (string * json)) (all_neos : list json)
  : result (list json) :=
  match buckets with
  | [] => Ok all_neos
  | (date, objects) :: rest =>
      elems <- iterate objects ;; extend_all rest (all_neos ++ elems)
  end.

(** [all_neos.sort(key=..., reverse=True)] *)
Definition sort_by_size (all_neos : list json) : result (list json) :=
  keys <- mapM sort_key all_neos ;; sort_reverse keys all_neos.

(** Lines 63-68: the objects of all dates in one list, largest first. *)
Definition all_neos_by_size (neo_data : json) : result (list json) :=
  near <- getitem neo_data "near_earth_objects" ;;
  buckets <- items near ;;
  all_neos <- extend_all buckets [] ;;
  sort_by_size all_neos.

(** [all_neos[:10]] *)
Definition top10 (all_neos : list json) : list json := firstn 10 all_neos.

(** The sites, as (latitude, longitude). *)
Definition locations : list (Q * Q) :=
  [ (40.7128, -74.0060);   (* NYC *)
    (34.0522, -118.2437);  (* LA *)
    (51.5074, -0.1278);    (* London *)
    (35.6762, 139.6503);   (* Tokyo *)
    (48.8566, 2.3522);     (* Paris *)
    (-33.8688, 151.2093);  (* Sydney *)
    (19.4326, -99.1332);   (* Mexico City *)
    (55.7558, 37.6173);    (* Moscow *)
    (28.6139, 77.2090);    (* Delhi *)
    (39.9042, 116.4074)    (* Beijing *)
  ]%Q.

(** [locations[idx % len(locations)]]; the index is always in range. *)
Definition site_for (idx : nat) : Q * Q :=
  nth (idx mod List.length locations) locations (0, 0)%Q.

(** The values read from one record (lines 88-92). *)
Record neo_fields : Type := {
  name : json;
  diameter_km : json;
  velocity_kmps : Q;
  miss_distance : Q;
  hazardous : json
}.

(** A rational as the Python number it stands for. *)
Definition num (q : Q) : pynum := PyFloat (Q2R q).

Section Builder.

Context `{Builtins}.

Definition extract_fields (neo : json) : result neo_fields :=
  name <- lookup name_path neo ;;
  diameter_km <- lookup diameter_path neo ;;
  velocity_kmps <- (v <- lookup velocity_path neo ;; py_float v) ;;
  miss_distance <- (v <- lookup miss_distance_path neo ;; py_float v) ;;
  hazardous <- lookup hazardous_path neo ;;
  Ok {| name := name;
        diameter_km := diameter_km;
        velocity_kmps := velocity_kmps;
        miss_distance := miss_distance;
        hazardous := hazardous |}.

(** [calculate_impact_effects(diameter_km, velocity_kmps)] on the values read
    from a record: the arithmetic raises [TypeError] unless [diameter_km] is
    a number. *)
Definition effects_of (f : neo_fields) : result (Q * impact_effects) :=
  match as_number (diameter_km f) with
  | Some d => Ok (d, calculate_impact_effects (Q2R d) (Q2R (velocity_kmps f)))
  | None => Raise TypeError
  end.

(** ['Yes' if hazardous else 'No'] *)
Definition yes_no (hazardous : json) : string :=
  if truthy hazardous then "Yes" else "No".

Definition popup_html (f : neo_fields) (d : Q) (effects : impact_effects) : string :=
  String.concat EmptyString
    [ nl;
      "        <div style="; dq; "width: 300px;"; dq; ">"; nl;
      "            <h4>"; py_str (name f); "</h4>"; nl;
      "            <b>Diameter:</b> "; format_number ".3f" (num d); " km<br>"; nl;
      "            <b>Velocity:</b> "; format_number ".2f" (num (velocity_kmps f));
        " km/s<br>"; nl;
      "            <b>Miss Distance:</b> "; format_number ",.0f" (num (miss_distance f));
        " km<br>"; nl;
      "            <b>Hazardous:</b> "; yes_no (hazardous f); "<br>"; nl;
      "            <hr>"; nl;
      "            <h5>Hypothetical Impact Effects:</h5>"; nl;
      "            <b>Impact Energy:</b> ";
        format_number ".1f" (PyFloat (energy_megatons effects)); " megatons TNT<br>"; nl;
      "            <b>Crater Diameter:</b> ";
        format_number ".2f" (crater_diameter effects); " km<br>"; nl;
      "            <b>Severe Damage:</b> ";
        format_number ".1f" (severe_damage_radius effects); " km radius<br>"; nl;
      "            <b>Moderate Damage:</b> ";
        format_number ".1f" (moderate_damage_radius effects); " km radius<br>"; nl;
      "            <b>Light Damage:</b> ";
        format_number ".1f" (light_damage_radius effects); " km radius"; nl;
      "        </div>"; nl;
      "        " ].

(** The five overlays of one object, in the order of the [add_to] calls
    (lines 118-169). *)
Definition crater_circle (site : Q * Q) (f : neo_fields) (d : Q)
  (effects : impact_effects) : overlay :=
  Circle site (py_mul (crater_diameter effects) (PyFloat 500))
    "darkred" true "red" 0.7%Q
    (Some {| html := popup_html f d effects; max_width := 300 |})
    (py_str (name f) ++ " - Crater").

Definition severe_circle (site : Q * Q) (effects : impact_effects) : overlay :=
  Circle site (py_mul (severe_damage_radius effects) (PyFloat 1000))
    "orangered" true "orange" 0.4%Q None "Severe Damage Zone".

Definition moderate_circle (site : Q * Q) (effects : impact_effects) : overlay :=
  Circle site (py_mul (moderate_damage_radius effects) (PyFloat 1000))
    "yellow" true "yellow" 0.2%Q None "Moderate Damage Zone".

Definition light_circle (site : Q * Q) (effects : impact_effects) : overlay :=
  Circle site (py_mul (light_damage_radius effects) (PyFloat 1000))
    "lightblue" true "lightblue" 0.1%Q None "Light Damage Zone".

Definition center_marker (site : Q * Q) (f : neo_fields) (d : Q)
  (effects : impact_effects) : overlay :=
  Marker site
    {| html := popup_html f d effects; max_width := 300 |}
    {| icon_color := if truthy (hazardous f) then "red" else "blue";
       icon := "meteor";
       prefix := "fa" |}
    (py_str (name f)).

Definition overlays_of (idx : nat) (f : neo_fields) (d : Q)
  (effects : impact_effects) : list overlay :=
  let site := site_for idx in
  [ crater_circle site f d effects;
    severe_circle site effects;
    moderate_circle site effects;
    light_circle site effects;
    center_marker site f d effects ].

(** The arguments of the seven [print] calls for one object
    (lines 172-178). *)
Definition report_of (idx : nat) (f : neo_fields) (d : Q)
  (effects : impact_effects) : list string :=
  [ str_of_nat (idx + 1) ++ ". " ++ py_str (name f);
    "   Diameter: " ++ format_number ".3f" (num d) ++ " km";
    "   Velocity: " ++ format_number ".2f" (num (velocity_kmps f)) ++ " km/s";
    "   Impact Energy: " ++ format_number ".1f" (PyFloat (energy_megatons effects))
      ++ " megatons";
    "   Crater: " ++ format_number ".2f" (crater_diameter effects) ++ " km diameter";
    "   Severe damage: " ++ format_number ".1f" (severe_damage_radius effects)
      ++ " km radius";
    "   Hazardous: " ++ yes_no (hazardous f) ++ nl ].

Fixpoint print_all (lines : list string) : io unit :=
  match lines with
  | [] => ret tt
  | l :: rest => print l ;; print_all rest
  end.

(** One turn of the loop over [enumerate(top_neos)] (lines 88-178). *)
Definition add_impact (idx : nat) (neo : json) (m : Map) : io Map :=
  f <- lift (extract_fields neo) ;;
  de <- lift (effects_of f) ;;
  let (d, effects) := (de : Q * impact_effects) in
  let m' := fold_left (fun acc o => add_to o acc) (overlays_of idx f d effects) m in
  print_all (report_of idx f d effects) ;;
  ret m'.

Fixpoint add_impacts (idx : nat) (top_neos : list json) (m : Map) : io Map :=
  match top_neos with
  | [] => ret m
  | neo :: rest => m' <- add_impact idx neo m ;; add_impacts (S idx) rest m'
  end.

(** [folium.Map(location=[40.7128, -74.0060], zoom_start=5)] *)
Definition new_map : Map :=
  {| map_location := (40.7128, -74.0060)%Q; zoom_start := 5; children := [] |}.

Definition no_data_line : string := "No NEO data available".

Definition found_line (n : nat) : string :=
  nl ++ "Found " ++ str_of_nat n ++ " Near Earth Objects. Showing top 10 by size:" ++ nl.

(** [not neo_data or "near_earth_objects" not in neo_data] *)
Definition no_data (neo_data : json) : result bool :=
  if negb (truthy neo_data) then Ok true
  else present <- contains neo_data "near_earth_objects" ;; Ok (negb present).

Definition create_impact_map (neo_data : json) : io Map :=
  let m := new_map in
  missing <- lift (no_data neo_data) ;;
  if (missing : bool) then
    print no_data_line ;; ret m
  else
    all_neos <- lift (all_neos_by_size neo_data) ;;
    let top_neos := top10 all_neos in
    print (found_line (List.length all_neos)) ;;
    add_impacts 0 top_neos m.

End Builder.

End MapBuilder.
Export MapBuilder.

(** * The program: [fetch_neo_data] and [main] *)

Module Program.

Local Open Scope string_scope.

Definition NASA_API_KEY : string := "DEMO_KEY".
Definition NEO_URL : string := "https://api.nasa.gov/neo/rest/v1/feed".

(** What the [try] block of [fetch_neo_data] comes to: the decoded body of
    the response, or an exception [e] of [requests.get], of
    [raise_for_status] or of [json], known by [str(e)]. *)
Inductive fetched : Type :=
| Body (data : json)
| Failure (message : string).

(** The world outside the program: the two readings of the clock, already
    formatted with [%Y-%m-%d] (the second one a day ahead), and the server,
    which answers a URL and its parameters. *)
Record outside : Type := {
  today : string;
  end_date : string;
  get : string -> list (string * string) -> fetched
}.

Definition fetch_neo_data (o : outside) : io json :=
  let params :=
    [ ("start_date", today o); ("end_date", end_date o); ("api_key", NASA_API_KEY) ] in
  match get o NEO_URL params with
  | Body data => ret data
  | Failure e => print ("Error fetching data: " ++ e) ;; ret JNull
  end.

(** What [main] acts on: the printed text and the files written, each with
    the map that was saved in it, in the order of the [save] calls. *)
Record world : Type := {
  stdout : list string;
  saved : list (string * Map)
}.

Definition prog (A : Type) : Type := world -> result A * world.

#[export] Instance Monad_prog : Monad prog := {
  ret := fun A a w => (Ok a, w);
  bind := fun A B c k w =>
    match c w with
    | (Ok a, w') => k a w'
    | (Raise e, w') => (Raise e, w')
    end
}.

(** Code that only prints or raises, run in the world. *)
Definition printing {A : Type} (c : io A) : prog A :=
  fun w =>
    let (r, out) := c (stdout w) in
    (r, {| stdout := out; saved := saved w |}).

(** [m.save(file)]; the write itself is taken to succeed. *)
Definition save (m : Map) (file : string) : prog unit :=
  fun w => (Ok tt, {| stdout := stdout w; saved := saved w ++ [(file, m)] |}).

Definition output_file : string := "neo_impact_map.html".

Definition main `{Builtins} (o : outside) : prog unit :=
  printing (print "Fetching Near Earth Objects from NASA...") ;;
  neo_data <- printing (fetch_neo_data o) ;;
  if truthy neo_data then
    count <- printing (lift (getitem neo_data "element_count")) ;;
    printing (print ("Total NEO count: " ++ py_str count)) ;;
    impact_map <- printing (create_impact_map neo_data) ;;
    save impact_map output_file ;;
    printing (print (nl ++ "Map saved as '" ++ output_file ++ "'")) ;;
    printing (print "Open this file in a web browser to view the interactive map!")
  else
    printing (print "Failed to fetch NEO data").

End Program.
Export Program.

(** * Concrete inputs

    An instance of the builtins and a few documents, for evaluating the
    definitions. *)

Module Examples.

Local Open Scope string_scope.

Definition digit_of (c : ascii) : option Z :=
  let n := nat_of_ascii c in
  if (48 <=? n)%nat && (n <=? 57)%nat then Some (Z.of_nat (n - 48)) else None.

(** Unsigned decimal literals, [digits] or [digits.digits]: [float] accepts
    them with this value.  [seen] records that a digit was read, [point]
    that the decimal point was. *)
Fixpoint decimal_from (s : string) (acc : Z) (scale : positive) (seen point : bool)
  : option Q :=
  match s with
  | EmptyString => if seen then Some (acc # scale) else None
  | String c rest =>
      match digit_of c with
      | Some d =>
          decimal_from rest (10 * acc + d)%Z
            (if point then (10 * scale)%positive else scale) true point
      | None =>
          if Ascii.eqb c "." && negb point
          then decimal_from rest acc scale seen true
          else None
      end
  end.

Definition decimal_of_str (s : string) : option Q := decimal_from s 0 1 false false.

(** Numbers are shown as their format specification in braces: the examples
    do not depend on the digits. *)
Definition example_builtins : Builtins :=
  {| float_of_str := decimal_of_str;
     format_number := fun spec _ => "{:" ++ spec ++ "}";
     repr_of := fun _ => "<object>" |}.

(** A record of the feed with all required keys. *)
Definition neo_record (name : string) (diameter : Q) (velocity miss : string)
  (hazardous : bool) : json :=
  JDict
    [ ("name", JStr name);
      ("estimated_diameter",
        JDict [ ("kilometers",
                  JDict [ ("estimated_diameter_min", JNum (diameter / 2));
                          ("estimated_diameter_max", JNum diameter) ]) ]);
      ("is_potentially_hazardous_asteroid", JBool hazardous);
      ("close_approach_data",
        JList [ JDict [ ("relative_velocity",
                          JDict [ ("kilometers_per_second", JStr velocity) ]);
                        ("miss_distance",
                          JDict [ ("kilometers", JStr miss) ]) ] ]) ].

Definition apophis : json := neo_record "99942 Apophis" 0.5 "17" "31000" true.
Definition pebble : json := neo_record "(2024 AB)" 0.01 "12.5" "4500000.25" false.
Definition twin : json := neo_record "(2024 CD)" 0.5 "8" "720000" false.

(** A record whose diameter is zero. *)
Definition dust : json := neo_record "(2024 ZZ)" 0 "17" "1000" false.

(** A record without its name. *)
Definition nameless : json :=
  JDict
    [ ("estimated_diameter",
        JDict [ ("kilometers", JDict [ ("estimated_diameter_max", JNum 0.2) ]) ]);
      ("is_potentially_hazardous_asteroid", JBool false);
      ("close_approach_data",
        JList [ JDict [ ("relative_velocity",
                          JDict [ ("kilometers_per_second", JStr "9.5") ]);
                        ("miss_distance", JDict [ ("kilometers", JStr "52000") ]) ] ]) ].

(** A feed of two dates. *)
Definition feed : json :=
  JDict
    [ ("element_count", JNum 3);
      ("near_earth_objects",
        JDict [ ("2024-01-01", JList [pebble; apophis]);
                ("2024-01-02", JList [twin]) ]) ].

(** A response without the objects, and one with no date at all. *)
Definition feed_without_objects : json :=
  JDict [ ("links", JDict []); ("element_count", JNum 3) ].
Definition feed_of_no_dates : json :=
  JDict [ ("element_count", JNum 0); ("near_earth_objects", JDict []) ].

(** The run of the map builder on [feed], nothing printed before it. *)
Definition feed_run : result Map * list string :=
  @create_impact_map example_builtins feed [].

Definition feed_map : Map :=
  match fst feed_run with
  | Ok m => m
  | Raise _ => new_map
  end.

End Examples.

(** * More inputs: malformed feeds, a feed of eleven records, the outside *)

Module Scenarios.

Import Examples.

Local Open Scope string_scope.

(** The diameter of a record that has a numeric one. *)
Definition diameter_of (neo : json) : Q :=
  match sort_key neo with
  | Ok (JNum q) => q
  | _ => 0%Q
  end.

(** The dates of [feed] and their records. *)
Definition feed_dates : list (string * list json) :=
  [ ("2024-01-01", [pebble; apophis]); ("2024-01-02", [twin]) ].

(** A feed of one date. *)
Definition feed_of (records : list json) : json :=
  JDict
    [ ("element_count", JNum (inject_Z (Z.of_nat (List.length records))));
      ("near_earth_objects", JDict [ ("2024-01-01", JList records) ]) ].

(** A record that has a name and nothing else. *)
Definition bare : json := JDict [ ("name", JStr "(2024 EF)") ].


(** A record with no close approach. *)
Definition lonely : json :=
  JDict
    [ ("name", JStr "(2024 IJ)");
      ("estimated_diameter",
        JDict [ ("kilometers", JDict [ ("estimated_diameter_max", JNum 0.3) ]) ]);
      ("is_potentially_hazardous_asteroid", JBool false);
      ("close_approach_data", JList []) ].

(** A response whose objects are [null]. *)
Definition feed_of_null : json :=
  JDict [ ("element_count", JNum 0); ("near_earth_objects", JNull) ].

(** A feed without [element_count]. *)
Definition feed_uncounted : json :=
  JDict [ ("near_earth_objects", JDict [ ("2024-01-01", JList [apophis]) ]) ].

(** Ten records of diameters 1 to 10 km. *)
Definition rock (n : nat) : json :=
  neo_record ("rock " ++ str_of_nat n) (inject_Z (Z.of_nat (n + 1))) "10" "100000" false.

Definition ten_rocks : list json := map rock (seq 0 10).

(** An outside whose server gives the same answer to every request. *)
Definition outside_of (answer : fetched) : outside :=
  {| today := "2024-01-01"; end_date := "2024-01-02"; get := fun _ _ => answer |}.

Definition nothing_yet : world := {| stdout := []; saved := [] |}.

End Scenarios.

(** * Properties of the calculator *)

Section CalculatorFacts.

Local Open Scope R_scope.

Lemma float_pow_pos (x y : R) : 0 < x -> float_pow x y = PyFloat (Rpower x y).
Proof.
  intros Hx. unfold float_pow.
  destruct (Rlt_dec 0 x) as [_ | Hn]; [reflexivity | contradiction].
Qed.



(** The energy as one closed expression of the two inputs. *)
Lemma energy_megatons_eq (d v : R) :
  energy_megatons (calculate_impact_effects d v)
  = 0.5 * ((4 / 3) * PI * (d * 500) ^ 3 * 2500) * (v * 1000) ^ 2 / 4.184e15.
Proof. reflexivity. Qed.

Lemma energy_megatons_factored (d v : R) :
  energy_megatons (calculate_impact_effects d v)
  = (0.5 * (4 / 3) * 500 ^ 3 * 2500 * 1000 ^ 2 / 4.184e15) * PI * (d ^ 3 * v ^ 2).
Proof. rewrite energy_megatons_eq. field. lra. Qed.



Lemma PI_bounds : 3.1415 < PI < 3.1417.
Proof.
  pose proof (PI_2_3_7_ineq 2) as Hpi.
  unfold sum_f_R0, tg_alt, PI_2_3_7_tg, Ratan_seq in Hpi.
  cbn [Nat.mul Nat.add pow INR] in Hpi.
  lra.
Qed.

Lemma Rpower_one (y : R) : Rpower 1 y = 1.
Proof. unfold Rpower. rewrite ln_1, Rmult_0_r. apply exp_0. Qed.

(** An object of 0.5 km at 17 km/s: a crater of exactly 10 km and an energy
    between 5650 and 5652 megatons. *)
Example half_km_at_17 :
  crater_diameter (calculate_impact_effects 0.5 17) = PyFloat 10
  /\ 5650 < energy_megatons (calculate_impact_effects 0.5 17) < 5652.
Proof.
  split.
  - unfold calculate_impact_effects. cbn [crater_diameter].
    replace (17 / 17) with 1 by lra.
    rewrite float_pow_pos by lra. rewrite Rpower_one. cbn [py_mul].
    f_equal. lra.
  - rewrite energy_megatons_factored. pose proof PI_bounds. lra.
Qed.

(** A negative velocity makes the crater diameter a complex number. *)
Example receding_object :
  crater_diameter (calculate_impact_effects 1 (-17))
  = PyComplex (20 * cos (PI * 0.43)) (20 * sin (PI * 0.43)).
Proof.
  unfold calculate_impact_effects, float_pow. cbn [crater_diameter].
  destruct (Rlt_dec 0 (-17 / 17)) as [Hpos | _]; [lra |].
  destruct (Rlt_dec (-17 / 17) 0) as [_ | Hneg]; [| lra].
  replace (- (-17 / 17)) with 1 by lra. rewrite Rpower_one.
  cbn [py_mul to_complex]. f_equal; lra.
Qed.








End CalculatorFacts.

(** * Properties of the sort *)

Section SortFacts.

Context {K A : Type} (ltb : K -> K -> bool).

Lemma insert_desc_perm (x : K * A) (l : list (K * A)) :
  Permutation (insert_desc ltb x l) (x :: l).
Proof.
  induction l as [| y l IH]; cbn; [reflexivity |].
  destruct (ltb (fst x) (fst y)); [| reflexivity].
  rewrite IH. apply perm_swap.
Qed.

Lemma sort_desc_perm (l : list (K * A)) : Permutation (sort_desc ltb l) l.
Proof.
  induction l as [| x l IH]; cbn; [reflexivity |].
  rewrite insert_desc_perm. now apply perm_skip.
Qed.

Lemma sort_desc_length (l : list (K * A)) :
  List.length (sort_desc ltb l) = List.length l.
Proof. apply Permutation_length, sort_desc_perm. Qed.

(** [<] is a strict weak order on the keys. *)
Hypothesis ltb_asym : forall a b, ltb a b = true -> ltb b a = false.
Hypothesis ltb_negtrans :
  forall a b c, ltb a b = false -> ltb b c = false -> ltb a c = false.

Lemma insert_desc_sorted (x : K * A) (l : list (K * A)) :
  StronglySorted (not_below ltb) l -> StronglySorted (not_below ltb) (insert_desc ltb x l).
Proof.
  induction 1 as [| y l Hs IH Hy]; cbn.
  - constructor; constructor.
  - destruct (ltb (fst x) (fst y)) eqn:E.
    + constructor; [exact IH |].
      rewrite Forall_forall in *. intros z Hz.
      apply (Permutation_in _ (insert_desc_perm x l)) in Hz.
      destruct Hz as [<- | Hz]; [apply ltb_asym, E | now apply Hy].
    + constructor; [now constructor |].
      constructor; [exact E |].
      rewrite Forall_forall in *. intros z Hz.
      apply (ltb_negtrans _ (fst y)); [exact E | now apply Hy].
Qed.

Lemma sort_desc_sorted (l : list (K * A)) : StronglySorted (not_below ltb) (sort_desc ltb l).
Proof.
  induction l as [| x l IH]; cbn; [constructor | now apply insert_desc_sorted].
Qed.

(** Inserting does not disturb the elements a predicate selects, when the
    selected elements are never strictly above one another. *)
Lemma insert_desc_filter (P : K * A -> bool) (x : K * A) (l : list (K * A)) :
  (forall y, P x = true -> P y = true -> ltb (fst x) (fst y) = false) ->
  filter P (insert_desc ltb x l) = filter P (x :: l).
Proof.
  intros HP. induction l as [| y l IH]; [reflexivity |].
  cbn [insert_desc]. destruct (ltb (fst x) (fst y)) eqn:E; [| reflexivity].
  cbn [filter] in *. rewrite IH.
  specialize (HP y).
  destruct (P x); [| reflexivity].
  destruct (P y); [| reflexivity].
  rewrite HP in E by reflexivity. discriminate.
Qed.

Lemma sort_desc_filter (P : K * A -> bool) (l : list (K * A)) :
  (forall x y, P x = true -> P y = true -> ltb (fst x) (fst y) = false) ->
  filter P (sort_desc ltb l) = filter P l.
Proof.
  intros HP. induction l as [| x l IH]; [reflexivity |].
  cbn [sort_desc fold_right]. fold (sort_desc ltb l).
  rewrite insert_desc_filter by (intros y; apply HP).
  cbn [filter]. now rewrite IH.
Qed.

End SortFacts.

Section RankingFacts.

Local Open Scope Q_scope.

Lemma Qltb_lt (x y : Q) : Qltb x y = true <-> x < y.
Proof.
  unfold Qltb. rewrite negb_true_iff, <- not_true_iff_false, Qle_bool_iff.
  split; [apply Qnot_le_lt | apply Qlt_not_le].
Qed.

Lemma Qltb_ge (x y : Q) : Qltb x y = false <-> y <= x.
Proof. unfold Qltb. rewrite negb_false_iff. apply Qle_bool_iff. Qed.

Lemma Qltb_asym (a b : Q) : Qltb a b = true -> Qltb b a = false.
Proof. rewrite Qltb_lt, Qltb_ge. apply Qlt_le_weak. Qed.

Lemma Qltb_negtrans (a b c : Q) :
  Qltb a b = false -> Qltb b c = false -> Qltb a c = false.
Proof. rewrite !Qltb_ge. intros H1 H2. now apply (Qle_trans _ b). Qed.

Lemma same_diameter_eq {A : Type} (q : Q) (p : Q * A) :
  same_diameter q p = true <-> fst p == q.
Proof. apply Qeq_bool_iff. Qed.

Lemma not_below_Qle {A : Type} (l : list (Q * A)) :
  StronglySorted (not_below Qltb) l <->
  StronglySorted (fun a b => fst b <= fst a) l.
Proof.
  split; induction 1 as [| x l Hs IH Hx]; constructor; try assumption;
    (eapply Forall_impl; [| exact Hx]); intros y; cbv beta; unfold not_below;
    apply Qltb_ge.
Qed.

(** The sort of the embedding is a stable sort by diameter, descending. *)
Lemma sort_desc_stable {A : Type} (l : list (Q * A)) :
  stable_sort_desc l (sort_desc Qltb l).
Proof.
  split; [apply sort_desc_perm |]. split.
  - apply not_below_Qle, sort_desc_sorted; [apply Qltb_asym | apply Qltb_negtrans].
  - intros q. apply sort_desc_filter. intros x y Hx Hy.
    apply same_diameter_eq in Hx, Hy. apply Qltb_ge.
    rewrite Hx, Hy. apply Qle_refl.
Qed.

Lemma sorted_head_max {A : Type} (a x : Q * A) (l : list (Q * A)) :
  StronglySorted (fun a b => fst b <= fst a) (a :: l) -> In x (a :: l) -> fst x <= fst a.
Proof.
  intros Hs [<- | Hin]; [apply Qle_refl |].
  apply StronglySorted_inv in Hs. destruct Hs as [_ Hall].
  rewrite Forall_forall in Hall. now apply Hall.
Qed.

Lemma filter_head_in {A : Type} (P : A -> bool) (a : A) (l rest : list A) :
  filter P l = a :: rest -> In a l.
Proof.
  intros E. assert (Hin : In a (filter P l)) by (rewrite E; now left).
  now apply filter_In in Hin.
Qed.

(** Two lists sorted by diameter, descending, that agree on the elements of
    every single diameter are the same list. *)
Lemma sorted_filter_unique {A : Type} (s1 : list (Q * A)) :
  forall s2,
    StronglySorted (fun a b => fst b <= fst a) s1 ->
    StronglySorted (fun a b => fst b <= fst a) s2 ->
    (forall q, filter (same_diameter q) s1 = filter (same_diameter q) s2) ->
    s1 = s2.
Proof.
  induction s1 as [| a s1 IH]; intros s2 H1 H2 Hf.
  - destruct s2 as [| b s2]; [reflexivity |].
    specialize (Hf (fst b)). cbn in Hf. unfold same_diameter at 1 in Hf.
    rewrite Qeq_bool_refl in Hf. discriminate.
  - assert (Ha : same_diameter (fst a) a = true) by apply Qeq_bool_refl.
    destruct s2 as [| b s2].
    { specialize (Hf (fst a)). cbn in Hf. rewrite Ha in Hf. discriminate. }
    assert (Hb : same_diameter (fst b) b = true) by apply Qeq_bool_refl.
    assert (Hab : fst a <= fst b).
    { apply (sorted_head_max b a s2 H2).
      pose proof (Hf (fst a)) as E. cbn [filter] in E. rewrite Ha in E.
      symmetry in E. exact (filter_head_in _ a (b :: s2) _ E). }
    assert (Hba : fst b <= fst a).
    { apply (sorted_head_max a b s1 H1).
      pose proof (Hf (fst b)) as E. cbn [filter] in E. rewrite Hb in E.
      exact (filter_head_in _ b (a :: s1) _ E). }
    assert (Heq : fst b == fst a) by now apply Qle_antisym.
    assert (a = b).
    { pose proof (Hf (fst a)) as E. cbn [filter] in E. rewrite Ha in E.
      apply same_diameter_eq in Heq. rewrite Heq in E. congruence. }
    subst b. f_equal. apply IH.
    + now apply StronglySorted_inv in H1.
    + now apply StronglySorted_inv in H2.
    + intros q. specialize (Hf q). cbn [filter] in Hf.
      destruct (same_diameter q a); congruence.
Qed.

Lemma stable_sort_desc_unique {A : Type} (l s1 s2 : list (Q * A)) :
  stable_sort_desc l s1 -> stable_sort_desc l s2 -> s1 = s2.
Proof.
  intros (_ & Hs1 & Hf1) (_ & Hs2 & Hf2).
  apply sorted_filter_unique; try assumption.
  intros q. now rewrite Hf1, Hf2.
Qed.

Lemma in_firstn {A : Type} (x : A) (n : nat) (l : list A) :
  In x (firstn n l) -> In x l.
Proof.
  intros Hin. rewrite <- (firstn_skipn n l). apply in_or_app. now left.
Qed.

Lemma firstn_sorted {A : Type} (R : A -> A -> Prop) (n : nat) (l : list A) :
  StronglySorted R l -> StronglySorted R (firstn n l).
Proof.
  intros Hs. revert n. induction Hs as [| x l Hs IH Hx]; intros [| n]; cbn;
    try constructor; [apply IH |].
  rewrite Forall_forall in *. intros y Hy. apply Hx.
  eapply in_firstn, Hy.
Qed.

Lemma filter_firstn_prefix {A : Type} (P : A -> bool) (n : nat) (l : list A) :
  exists rest, filter P l = filter P (firstn n l) ++ rest.
Proof.
  exists (filter P (skipn n l)).
  rewrite <- filter_app, firstn_skipn. reflexivity.
Qed.

Lemma firstn_min_length {A : Type} (n : nat) (l : list A) :
  firstn (Nat.min n (List.length l)) l = firstn n l.
Proof.
  destruct (Nat.le_ge_cases n (List.length l)) as [Hle | Hge].
  - now rewrite Nat.min_l.
  - rewrite Nat.min_r by assumption.
    now rewrite !firstn_all2 by lia.
Qed.

End RankingFacts.

(** * The ranker: lines 63-69 *)

Section RankerFacts.

Import Examples.

Lemma mapM_sort_key (all_neos : list json) (ds : list Q) :
  Forall2 (fun neo d => sort_key neo = Ok (JNum d)) all_neos ds ->
  mapM sort_key all_neos = Ok (map JNum ds).
Proof.
  induction 1 as [| neo d l ds' Hk _ IH]; [reflexivity |].
  cbn [mapM map]. rewrite Hk, IH. reflexivity.
Qed.

Lemma traverse_as_number (ds : list Q) : traverse as_number (map JNum ds) = Some ds.
Proof.
  induction ds as [| d ds IH]; [reflexivity |]. cbn. now rewrite IH.
Qed.

Lemma sort_reverse_numbers {A : Type} (ds : list Q) (l : list A) :
  List.length l = List.length ds ->
  sort_reverse (map JNum ds) l = Ok (map snd (sort_desc Qltb (combine ds l))).
Proof.
  intros Hlen. unfold sort_reverse.
  destruct (Nat.ltb (List.length l) 2) eqn:E.
  - apply Nat.ltb_lt in E.
    destruct l as [| x [| y l]]; destruct ds as [| d [| d' ds]];
      cbn in *; try discriminate; try reflexivity; lia.
  - now rewrite traverse_as_number.
Qed.

(** C2. For every list of records with numeric diameters, of length L, the
    ranker (sort by diameter with [reverse=True], then [[:10]]) returns the
    first min(10, L) elements of the stable sort of the input by diameter,
    descending: its diameters never increase, and the records of any one
    diameter stand in it in their input order. *)
Theorem ranker_stable_top10 (all_neos : list json) (ds : list Q) :
  Forall2 (fun neo d => sort_key neo = Ok (JNum d)) all_neos ds ->
  let input := combine ds all_neos in
  exists sorted ranked : list (Q * json),
    stable_sort_desc input sorted
    /\ (forall s, stable_sort_desc input s -> s = sorted)
    /\ ranked = firstn (Nat.min 10 (List.length all_neos)) sorted
    /\ (by_size <- sort_by_size all_neos ;; Ok (top10 by_size)) = Ok (map snd ranked)
    /\ List.length ranked = Nat.min 10 (List.length all_neos)
    /\ StronglySorted (fun a b => (fst b <= fst a)%Q) ranked
    /\ (forall q, exists rest,
          filter (same_diameter q) input = filter (same_diameter q) ranked ++ rest).
Proof.
  intros Hk input.
  assert (Hlen : List.length all_neos = List.length ds) by (eapply Forall2_length, Hk).
  assert (Hin : List.length input = List.length all_neos).
  { unfold input. rewrite length_combine. lia. }
  pose proof (sort_desc_stable input) as Hst.
  exists (sort_desc Qltb input), (firstn (Nat.min 10 (List.length all_neos)) (sort_desc Qltb input)).
  split; [exact Hst |].
  split; [intros s Hs; exact (stable_sort_desc_unique input _ _ Hs Hst) |].
  split; [reflexivity |].
  split.
  { unfold sort_by_size. rewrite (mapM_sort_key _ _ Hk). cbn [bind Monad_result].
    rewrite sort_reverse_numbers by exact Hlen. fold input. unfold top10.
    rewrite firstn_map. f_equal. f_equal.
    rewrite <- Hin, <- (sort_desc_length Qltb input). symmetry. apply firstn_min_length. }
  split.
  { rewrite length_firstn, sort_desc_length, Hin. lia. }
  split.
  { apply firstn_sorted. apply Hst. }
  intros q. destruct Hst as (_ & _ & Hf). rewrite <- Hf.
  apply filter_firstn_prefix.
Qed.

Lemma ranker_stable_top10_witness :
  Forall2 (fun neo d => sort_key neo = Ok (JNum d))
    [pebble; apophis; twin] [0.01; 0.5; 0.5]%Q
  /\ let input := combine [0.01; 0.5; 0.5]%Q [pebble; apophis; twin] in
     exists sorted ranked : list (Q * json),
       stable_sort_desc input sorted
       /\ (forall s, stable_sort_desc input s -> s = sorted)
       /\ ranked = firstn (Nat.min 10 (List.length [pebble; apophis; twin])) sorted
       /\ (by_size <- sort_by_size [pebble; apophis; twin] ;; Ok (top10 by_size))
          = Ok (map snd ranked)
       /\ List.length ranked = Nat.min 10 (List.length [pebble; apophis; twin])
       /\ StronglySorted (fun a b => (fst b <= fst a)%Q) ranked
       /\ (forall q, exists rest,
             filter (same_diameter q) input = filter (same_diameter q) ranked ++ rest).
Proof.
  assert (Hk : Forall2 (fun neo d => sort_key neo = Ok (JNum d))
                 [pebble; apophis; twin] [0.01; 0.5; 0.5]%Q).
  { repeat constructor. }
  split; [exact Hk | exact (ranker_stable_top10 _ _ Hk)].
Defined.

(** The ranker on three records: the two of diameter 0.5 come first, in
    their input order. *)
Example ranker_example :
  (by_size <- sort_by_size [pebble; apophis; twin] ;; Ok (top10 by_size))
  = Ok [apophis; twin; pebble].
Proof. reflexivity. Qed.

End RankerFacts.

(** * The site assigner: line 98 *)

Section SiteFacts.

Lemma locations_length : List.length locations = 10%nat.
Proof. reflexivity. Qed.

(** C5. For every non-negative rank the site is
    [locations[rank mod 10]], where [locations] is the fixed list of ten
    sites (NYC, LA, London, Tokyo, Paris, Sydney, Mexico City, Moscow, Delhi,
    Beijing); hence the sites of [rank] and [rank + 10] are the same. *)
Theorem site_for_cyclic (rank : nat) :
  nth_error locations (rank mod 10) = Some (site_for rank)
  /\ site_for (rank + 10) = site_for rank
  /\ locations
     = [ (40.7128, -74.0060); (34.0522, -118.2437); (51.5074, -0.1278);
         (35.6762, 139.6503); (48.8566, 2.3522); (-33.8688, 151.2093);
         (19.4326, -99.1332); (55.7558, 37.6173); (28.6139, 77.2090);
         (39.9042, 116.4074) ]%Q.
Proof.
  split; [| split; [| reflexivity]].
  - unfold site_for. rewrite locations_length.
    apply nth_error_nth'. rewrite locations_length.
    apply Nat.mod_upper_bound. discriminate.
  - unfold site_for. rewrite locations_length.
    replace (rank + 10)%nat with (rank + 1 * 10)%nat by lia.
    now rewrite Nat.Div0.mod_add.
Qed.

End SiteFacts.

(** * Printing and raising *)

Section IoFacts.

Lemma appends_ret {A : Type} (a : A) : appends (ret a) (Ok a) [].
Proof. intros out. cbn. now rewrite app_nil_r. Qed.

Lemma appends_lift {A : Type} (r : result A) : appends (lift r) r [].
Proof. intros out. unfold lift. now rewrite app_nil_r. Qed.

Lemma appends_print (s : string) : appends (print s) (Ok tt) [s].
Proof. intros out. reflexivity. Qed.

Lemma appends_bind_ok {A B : Type} (c : io A) (k : A -> io B) (a : A)
  (t1 t2 : list string) (r : result B) :
  appends c (Ok a) t1 -> appends (k a) r t2 -> appends (bind c k) r (t1 ++ t2).
Proof.
  intros Hc Hk out. cbn. rewrite Hc, Hk. now rewrite app_assoc.
Qed.

Lemma appends_bind_raise {A B : Type} (c : io A) (k : A -> io B) (e : exn)
  (t : list string) :
  appends c (Raise e) t -> appends (bind c k) (Raise e) t.
Proof. intros Hc out. cbn. now rewrite Hc. Qed.

Lemma appends_bind {A B : Type} (c : io A) (k : A -> io B) :
  (exists r t, appends c r t) ->
  (forall a, exists r t, appends (k a) r t) ->
  exists r t, appends (bind c k) r t.
Proof.
  intros ([a | e] & t & Hc) Hk.
  - destruct (Hk a) as (r & t' & Ha).
    exists r, (t ++ t'). now apply (appends_bind_ok c k a).
  - exists (Raise e), t. now apply appends_bind_raise.
Qed.

Lemma appends_print_all (lines : list string) :
  appends (print_all lines) (Ok tt) lines.
Proof.
  induction lines as [| l lines IH].
  - apply appends_ret.
  - change (l :: lines) with ([l] ++ lines) at 2. cbn [print_all].
    eapply appends_bind_ok; [apply appends_print | exact IH].
Qed.

Lemma appends_unique {A : Type} (c : io A) (r r' : result A) (t t' : list string) :
  appends c r t -> appends c r' t' -> r = r' /\ t = t'.
Proof.
  intros H1 H2. specialize (H1 []). specialize (H2 []).
  rewrite H1 in H2. cbn in H2. now inversion H2.
Qed.

End IoFacts.

(** * The loop over the selected objects: lines 87-178 *)

Section LoopFacts.

Context `{Builtins}.

Lemma children_add_all (os : list overlay) (m : Map) :
  children (fold_left (fun acc o => add_to o acc) os m) = children m ++ os.
Proof.
  revert m. induction os as [| o os IH]; intros m; cbn [fold_left].
  - now rewrite app_nil_r.
  - rewrite IH. cbn [add_to children]. now rewrite <- app_assoc.
Qed.

(** One turn of the loop: the exception of the extraction or of the
    arithmetic and nothing printed, or five more overlays and seven more
    lines. *)
Lemma add_impact_raise_extract (idx : nat) (neo : json) (m : Map) (e : exn) :
  extract_fields neo = Raise e -> appends (add_impact idx neo m) (Raise e) [].
Proof.
  intros E. unfold add_impact. apply appends_bind_raise.
  rewrite E. apply appends_lift.
Qed.

Lemma add_impact_raise_effects (idx : nat) (neo : json) (m : Map) (f : neo_fields)
  (e : exn) :
  extract_fields neo = Ok f -> effects_of f = Raise e ->
  appends (add_impact idx neo m) (Raise e) [].
Proof.
  intros E1 E2. unfold add_impact.
  change (@nil string) with (@nil string ++ []).
  eapply appends_bind_ok; [rewrite E1; apply appends_lift |].
  apply appends_bind_raise. rewrite E2. apply appends_lift.
Qed.

Lemma add_impact_ok (idx : nat) (neo : json) (m : Map) (f : neo_fields) (d : Q)
  (effects : impact_effects) :
  extract_fields neo = Ok f -> effects_of f = Ok (d, effects) ->
  appends (add_impact idx neo m)
    (Ok (fold_left (fun acc o => add_to o acc) (overlays_of idx f d effects) m))
    (report_of idx f d effects).
Proof.
  intros E1 E2. unfold add_impact.
  change (report_of idx f d effects) with ([] ++ [] ++ report_of idx f d effects ++ []).
  eapply appends_bind_ok; [rewrite E1; apply appends_lift |].
  eapply appends_bind_ok; [rewrite E2; apply appends_lift |].
  cbv beta iota.
  eapply appends_bind_ok; [apply appends_print_all | apply appends_ret].
Qed.

Lemma add_impact_appends (idx : nat) (neo : json) (m : Map) :
  exists r t, appends (add_impact idx neo m) r t.
Proof.
  destruct (extract_fields neo) as [f | e] eqn:E1.
  - destruct (effects_of f) as [[d effects] | e] eqn:E2.
    + eexists _, _. exact (add_impact_ok idx neo m f d effects E1 E2).
    + eexists _, _. exact (add_impact_raise_effects idx neo m f e E1 E2).
  - eexists _, _. exact (add_impact_raise_extract idx neo m e E1).
Qed.

Lemma add_impacts_appends (top_neos : list json) :
  forall idx m, exists r t, appends (add_impacts idx top_neos m) r t.
Proof.
  induction top_neos as [| neo rest IH]; intros idx m; cbn [add_impacts].
  - eexists _, _. apply appends_ret.
  - apply appends_bind; [apply add_impact_appends | intros m'; apply IH].
Qed.

(** A loop that ends normally has added, for the object at position [k],
    its five overlays at positions [5k .. 5k+4] after those already there. *)
Lemma add_impacts_children (top_neos : list json) :
  forall idx m out m' out',
    add_impacts idx top_neos m out = (Ok m', out') ->
    exists added,
      children m' = children m ++ added
      /\ List.length added = (5 * List.length top_neos)%nat
      /\ forall k neo, nth_error top_neos k = Some neo ->
           exists f d effects,
             extract_fields neo = Ok f
             /\ effects_of f = Ok (d, effects)
             /\ firstn 5 (skipn (5 * k) added) = overlays_of (idx + k) f d effects.
Proof.
  induction top_neos as [| neo rest IH]; intros idx m out m' out' Hrun.
  - cbn in Hrun. inversion Hrun; subst. exists []. rewrite app_nil_r.
    repeat split. intros [| k] neo Hk; discriminate.
  - cbn [add_impacts] in Hrun.
    destruct (extract_fields neo) as [f | e] eqn:E1.
    2:{ pose proof (add_impact_raise_extract idx neo m e E1 out) as Hr.
        cbn [bind Monad_io] in Hrun. rewrite Hr in Hrun. discriminate. }
    destruct (effects_of f) as [[d effects] | e] eqn:E2.
    2:{ pose proof (add_impact_raise_effects idx neo m f e E1 E2 out) as Hr.
        cbn [bind Monad_io] in Hrun. rewrite Hr in Hrun. discriminate. }
    pose proof (add_impact_ok idx neo m f d effects E1 E2 out) as Hr.
    cbn [bind Monad_io] in Hrun. rewrite Hr in Hrun.
    apply IH in Hrun. destruct Hrun as (added & Hch & Hlen & Hnth).
    rewrite children_add_all in Hch.
    exists (overlays_of idx f d effects ++ added).
    split; [now rewrite Hch, app_assoc |].
    split; [rewrite length_app, Hlen; cbn [List.length overlays_of]; lia |].
    intros [| k] neo' Hk.
    + cbn in Hk. inversion Hk; subst neo'. exists f, d, effects.
      rewrite Nat.add_0_r. repeat split; assumption.
    + cbn [nth_error] in Hk. destruct (Hnth k neo' Hk) as (f' & d' & e' & F1 & F2 & F3).
      exists f', d', e'. split; [exact F1 |]. split; [exact F2 |].
      replace (idx + S k)%nat with (S idx + k)%nat by lia. rewrite <- F3.
      replace (5 * S k)%nat with (5 + 5 * k)%nat by lia.
      reflexivity.
Qed.

End LoopFacts.

(** * Reading a record: lines 88-92 *)

Section ExtractionFacts.

Context `{Builtins}.

Import Examples.

Lemma extract_fields_ok (neo n d h xv xm : json) (v md : Q) :
  lookup name_path neo = Ok n ->
  lookup diameter_path neo = Ok d ->
  lookup velocity_path neo = Ok xv -> py_float xv = Ok v ->
  lookup miss_distance_path neo = Ok xm -> py_float xm = Ok md ->
  lookup hazardous_path neo = Ok h ->
  extract_fields neo
  = Ok {| name := n; diameter_km := d; velocity_kmps := v; miss_distance := md;
          hazardous := h |}.
Proof.
  intros E1 E2 E3 E3' E4 E4' E5. unfold extract_fields.
  rewrite E1, E2, E3, E4, E5. cbn [bind Monad_result].
  rewrite E3', E4'. reflexivity.
Qed.

Lemma extract_fields_raise (neo : json) (e : exn) :
  extract_fields neo = Raise e ->
  (exists p, In p required_paths /\ lookup p neo = Raise e)
  \/ (exists p v, In p [velocity_path; miss_distance_path]
                  /\ lookup p neo = Ok v /\ py_float v = Raise e).
Proof.
  unfold extract_fields, required_paths. intros E.
  destruct (lookup name_path neo) as [n |] eqn:E1; cbn [bind Monad_result] in E;
    [| inversion E; subst; left; eexists; split; [| exact E1]; cbn; tauto].
  destruct (lookup diameter_path neo) as [d |] eqn:E2; cbn [bind Monad_result] in E;
    [| inversion E; subst; left; eexists; split; [| exact E2]; cbn; tauto].
  destruct (lookup velocity_path neo) as [xv |] eqn:E3; cbn [bind Monad_result] in E;
    [| inversion E; subst; left; eexists; split; [| exact E3]; cbn; tauto].
  destruct (py_float xv) as [v |] eqn:E3'; cbn [bind Monad_result] in E;
    [| inversion E; subst; right; exists velocity_path, xv; cbn; tauto].
  destruct (lookup miss_distance_path neo) as [xm |] eqn:E4; cbn [bind Monad_result] in E;
    [| inversion E; subst; left; eexists; split; [| exact E4]; cbn; tauto].
  destruct (py_float xm) as [md |] eqn:E4'; cbn [bind Monad_result] in E;
    [| inversion E; subst; right; exists miss_distance_path, xm; cbn; tauto].
  destruct (lookup hazardous_path neo) as [h |] eqn:E5; cbn [bind Monad_result] in E;
    [discriminate | inversion E; subst; left; eexists; split; [| exact E5]; cbn; tauto].
Qed.

Lemma extract_fields_needs (neo : json) (f : neo_fields) :
  extract_fields neo = Ok f ->
  forall p, In p required_paths -> exists v, lookup p neo = Ok v.
Proof.
  unfold extract_fields, required_paths. intros E p Hp.
  destruct (lookup name_path neo) as [n |] eqn:E1; [| discriminate].
  destruct (lookup diameter_path neo) as [d |] eqn:E2; [| discriminate].
  destruct (lookup velocity_path neo) as [xv |] eqn:E3; [| discriminate].
  cbn [bind Monad_result] in E.
  destruct (py_float xv) as [v |]; [| discriminate].
  destruct (lookup miss_distance_path neo) as [xm |] eqn:E4; [| discriminate].
  destruct (lookup hazardous_path neo) as [h |] eqn:E5;
    [| cbn [bind Monad_result] in E; destruct (py_float xm); discriminate].
  cbn in Hp. destruct Hp as [<- | [<- | [<- | [<- | [<- | []]]]]]; eauto.
Qed.

(** C3, as the code has it.  Reading the five fields of a record fails when
    a required key is absent; the exception is that of the first lookup or
    [float] conversion that fails, in the order of lines 88-92: the name,
    the diameter, the velocity and its conversion, the miss distance and its
    conversion, the hazard flag ([KeyError] for an absent key).  Nothing is
    validated: when the five lookups and the two conversions succeed the
    fields are returned as read, whatever the sign of the diameter and of
    the velocity.  Reading prints nothing. *)
Theorem extract_fields_outcome (neo : json) :
  (forall p, In p required_paths -> lookup p neo = Raise KeyError ->
     exists e, extract_fields neo = Raise e)
  /\ (forall e, extract_fields neo = Raise e ->
        (exists p, In p required_paths /\ lookup p neo = Raise e)
        \/ (exists p v, In p [velocity_path; miss_distance_path]
                        /\ lookup p neo = Ok v /\ py_float v = Raise e))
  /\ (forall e, lookup name_path neo = Raise e -> extract_fields neo = Raise e)
  /\ (forall n, lookup name_path neo = Ok n ->
      (forall e, lookup diameter_path neo = Raise e -> extract_fields neo = Raise e)
      /\ forall d, lookup diameter_path neo = Ok d ->
      (forall e, lookup velocity_path neo = Raise e -> extract_fields neo = Raise e)
      /\ forall xv, lookup velocity_path neo = Ok xv ->
      (forall e, py_float xv = Raise e -> extract_fields neo = Raise e)
      /\ forall v, py_float xv = Ok v ->
      (forall e, lookup miss_distance_path neo = Raise e ->
         extract_fields neo = Raise e)
      /\ forall xm, lookup miss_distance_path neo = Ok xm ->
      (forall e, py_float xm = Raise e -> extract_fields neo = Raise e)
      /\ forall md, py_float xm = Ok md ->
      (forall e, lookup hazardous_path neo = Raise e -> extract_fields neo = Raise e)
      /\ forall h, lookup hazardous_path neo = Ok h ->
      extract_fields neo
      = Ok {| name := n; diameter_km := d; velocity_kmps := v;
              miss_distance := md; hazardous := h |})
  /\ appends (lift (extract_fields neo)) (extract_fields neo) [].
Proof.
  split; [| split; [| split; [| split]]].
  - intros p Hp Hmiss. destruct (extract_fields neo) as [f | e] eqn:E; [| now exists e].
    destruct (extract_fields_needs neo f E p Hp) as (v & Hv). congruence.
  - apply extract_fields_raise.
  - intros e E1. unfold extract_fields. now rewrite E1.
  - intros n E1. unfold extract_fields. rewrite E1. cbn [bind Monad_result].
    split; [intros e E2; now rewrite E2 |]. intros d E2. rewrite E2.
    split; [intros e E3; now rewrite E3 |]. intros xv E3. rewrite E3.
    cbn [bind Monad_result].
    split; [intros e E3'; now rewrite E3' |]. intros v E3'. rewrite E3'.
    split; [intros e E4; now rewrite E4 |]. intros xm E4. rewrite E4.
    cbn [bind Monad_result].
    split; [intros e E4'; now rewrite E4' |]. intros md E4'. rewrite E4'.
    split; [intros e E5; now rewrite E5 |]. intros h E5. now rewrite E5.
  - apply appends_lift.
Qed.

End ExtractionFacts.

Section ExtractionExamples.

Import Examples.

Local Open Scope string_scope.

Lemma extract_fields_outcome_witness :
  (exists e, @extract_fields example_builtins nameless = Raise e)
  /\ @extract_fields example_builtins nameless = Raise KeyError
  /\ @extract_fields example_builtins dust
     = Ok {| name := JStr "(2024 ZZ)"; diameter_km := JNum 0; velocity_kmps := 17 # 1;
             miss_distance := 1000 # 1; hazardous := JBool false |}.
Proof.
  destruct (@extract_fields_outcome example_builtins nameless)
    as (Hmiss & _ & Hname & _).
  destruct (@extract_fields_outcome example_builtins dust) as (_ & _ & _ & Hok & _).
  split; [| split].
  - apply (Hmiss name_path); [now left | reflexivity].
  - apply Hname. reflexivity.
  - destruct (Hok (JStr "(2024 ZZ)") eq_refl) as (_ & Hd).
    destruct (Hd (JNum 0) eq_refl) as (_ & Hxv).
    destruct (Hxv (JStr "17") eq_refl) as (_ & Hv).
    destruct (Hv (17 # 1) eq_refl) as (_ & Hxm).
    destruct (Hxm (JStr "1000") eq_refl) as (_ & Hmd).
    destruct (Hmd (1000 # 1) eq_refl) as (_ & Hh).
    exact (Hh (JBool false) eq_refl).
Defined.

(** C3 as stated fails: a record whose diameter is 0 is read without any
    error, where the specification asks for a validation error. *)
Lemma no_validation_counterexample :
  (0 <= 0)%Q
  /\ ~ (exists e, @extract_fields example_builtins dust = Raise e)
  /\ @extract_fields example_builtins dust
     = Ok {| name := JStr "(2024 ZZ)"; diameter_km := JNum 0; velocity_kmps := 17 # 1;
             miss_distance := 1000 # 1; hazardous := JBool false |}.
Proof.
  split; [apply Qle_refl |]. split; [intros (e & He); discriminate He | reflexivity].
Qed.

(** The record without a name raises [KeyError]. *)
Example nameless_raises : @extract_fields example_builtins nameless = Raise KeyError.
Proof. reflexivity. Qed.

End ExtractionExamples.

(** * The whole of [create_impact_map] *)

Section PipelineFacts.

Context `{Builtins}.

Local Open Scope string_scope.

Lemma dict_get_contains (k : string) (kvs : list (string * json)) :
  existsb (fun kv => String.eqb k (fst kv)) kvs
  = match dict_get k kvs with Some _ => true | None => false end.
Proof.
  induction kvs as [| [k' v] kvs IH]; [reflexivity |].
  cbn. destruct (String.eqb k k'); [reflexivity | exact IH].
Qed.

(** The guard of line 58 is taken exactly when there is nothing to
    subscript: [neo_data] is falsy or lacks the key. *)
Lemma all_neos_no_data (neo_data : json) (all_neos : list json) :
  all_neos_by_size neo_data = Ok all_neos -> no_data neo_data = Ok false.
Proof.
  unfold all_neos_by_size, no_data. intros E.
  destruct neo_data as [| b | q | s | l | kvs]; try discriminate E.
  cbn [getitem bind Monad_result] in E.
  destruct (dict_get "near_earth_objects" kvs) as [near |] eqn:G; [| discriminate E].
  destruct kvs as [| kv kvs]; [discriminate G |].
  cbn [truthy List.length Nat.eqb negb contains bind Monad_result].
  now rewrite dict_get_contains, G.
Qed.

Lemma create_impact_map_no_data (neo_data : json) :
  no_data neo_data = Ok true ->
  appends (create_impact_map neo_data) (Ok new_map) [no_data_line].
Proof.
  intros E. unfold create_impact_map. rewrite E.
  change [no_data_line] with ([] ++ [no_data_line] ++ [])%list.
  eapply appends_bind_ok; [apply appends_lift |]. cbv beta iota.
  eapply appends_bind_ok; [apply appends_print | apply appends_ret].
Qed.

Lemma create_impact_map_loop (neo_data : json) (all_neos : list json)
  (out : list string) :
  all_neos_by_size neo_data = Ok all_neos ->
  create_impact_map neo_data out
  = add_impacts 0 (top10 all_neos) new_map
      (out ++ [found_line (List.length all_neos)])%list.
Proof.
  intros E. unfold create_impact_map.
  rewrite (all_neos_no_data _ _ E), E. reflexivity.
Qed.



(** C4. For every selected object, the one of rank [rank] in the first ten
    of the sorted list, a run that ends normally has added exactly five
    overlays, at positions [5*rank .. 5*rank+4] of the map: the crater
    circle, the severe, moderate and light damage circles and the marker,
    all at the site of that rank; the radii are the crater diameter times
    500 and the three damage radii times 1000, and the icon of the marker is
    red for a hazardous object and blue otherwise. *)
Theorem five_overlays_per_neo (neo_data : json) (all_neos : list json)
  (out out' : list string) (m : Map) :
  all_neos_by_size neo_data = Ok all_neos ->
  create_impact_map neo_data out = (Ok m, out') ->
  List.length (children m) = (5 * List.length (top10 all_neos))%nat
  /\ forall rank neo, nth_error (top10 all_neos) rank = Some neo ->
       exists f d effects popup,
         extract_fields neo = Ok f
         /\ as_number (diameter_km f) = Some d
         /\ effects = calculate_impact_effects (Q2R d) (Q2R (velocity_kmps f))
         /\ popup = {| html := popup_html f d effects; max_width := 300 |}
         /\ firstn 5 (skipn (5 * rank) (children m))
            = [ Circle (site_for rank)
                  (py_mul (crater_diameter effects) (PyFloat 500))
                  "darkred" true "red" 0.7%Q (Some popup)
                  (py_str (name f) ++ " - Crater");
                Circle (site_for rank)
                  (py_mul (severe_damage_radius effects) (PyFloat 1000))
                  "orangered" true "orange" 0.4%Q None "Severe Damage Zone";
                Circle (site_for rank)
                  (py_mul (moderate_damage_radius effects) (PyFloat 1000))
                  "yellow" true "yellow" 0.2%Q None "Moderate Damage Zone";
                Circle (site_for rank)
                  (py_mul (light_damage_radius effects) (PyFloat 1000))
                  "lightblue" true "lightblue" 0.1%Q None "Light Damage Zone";
                Marker (site_for rank) popup
                  {| icon_color := if truthy (hazardous f) then "red" else "blue";
                     icon := "meteor";
                     prefix := "fa" |}
                  (py_str (name f)) ].
Proof.
  intros Hall Hrun. rewrite (create_impact_map_loop _ _ _ Hall) in Hrun.
  apply add_impacts_children in Hrun.
  destruct Hrun as (added & Hch & Hlen & Hnth). cbn [children new_map app] in Hch.
  rewrite Hch. split; [exact Hlen |].
  intros rank neo Hk. destruct (Hnth rank neo Hk) as (f & d & effects & E1 & E2 & E3).
  unfold effects_of in E2. destruct (as_number (diameter_km f)) as [d' |] eqn:Ed;
    [| discriminate E2].
  inversion E2; subst d' effects.
  exists f, d, (calculate_impact_effects (Q2R d) (Q2R (velocity_kmps f))),
    {| html := popup_html f d (calculate_impact_effects (Q2R d) (Q2R (velocity_kmps f)));
       max_width := 300 |}.
  repeat split; assumption.
Qed.

(** C7, as the code has it.  The map builder does not raise when the objects
    are missing or empty, and adds no overlay.  When [neo_data] is falsy
    ([None], an empty dictionary) or has no key [near_earth_objects], it
    prints the one line [No NEO data available]; when that key holds a
    dictionary with no date, or with empty lists only, it prints the one
    line that states that 0 objects were found. *)
Theorem empty_or_missing_input (neo_data : json) (out : list string) :
  (truthy neo_data = false
   \/ (exists kvs, neo_data = JDict kvs /\ dict_get "near_earth_objects" kvs = None) ->
   create_impact_map neo_data out = (Ok new_map, (out ++ [no_data_line])%list))
  /\ (forall kvs buckets,
        neo_data = JDict kvs ->
        dict_get "near_earth_objects" kvs = Some (JDict buckets) ->
        Forall (fun bucket => snd bucket = JList []) buckets ->
        create_impact_map neo_data out = (Ok new_map, (out ++ [found_line 0])%list))
  /\ children new_map = [].
Proof.
  split; [| split; [| reflexivity]].
  - intros Hmiss. apply create_impact_map_no_data. unfold no_data.
    destruct Hmiss as [Hf | (kvs & -> & Hget)]; [now rewrite Hf |].
    destruct (negb (truthy (JDict kvs))); [reflexivity |].
    cbn [contains bind Monad_result]. now rewrite dict_get_contains, Hget.
  - intros kvs buckets -> Hget Hempty.
    assert (Hall : all_neos_by_size (JDict kvs) = Ok []).
    { unfold all_neos_by_size. cbn [getitem]. rewrite Hget.
      cbn [bind Monad_result items].
      assert (Hext : extend_all buckets [] = Ok []).
      { clear Hget. induction Hempty as [| [date objects] rest Hb _ IH]; [reflexivity |].
        cbn in Hb. subst objects. cbn [extend_all iterate bind Monad_result app].
        exact IH. }
      rewrite Hext. reflexivity. }
    rewrite (create_impact_map_loop _ _ _ Hall). reflexivity.
Qed.

End PipelineFacts.

Section PipelineExamples.

Import Examples.

Local Open Scope string_scope.

Lemma feed_sorted : all_neos_by_size feed = Ok [apophis; twin; pebble].
Proof. reflexivity. Qed.

Lemma feed_run_ok :
  @create_impact_map example_builtins feed [] = (Ok feed_map, snd feed_run).
Proof. reflexivity. Qed.

(** The report of the run on [feed]: the count of all three objects, then
    seven lines for each in rank order. *)
Example feed_report :
  snd feed_run
  = [ found_line 3;
      "1. 99942 Apophis"; "   Diameter: {:.3f} km"; "   Velocity: {:.2f} km/s";
      "   Impact Energy: {:.1f} megatons"; "   Crater: {:.2f} km diameter";
      "   Severe damage: {:.1f} km radius"; "   Hazardous: Yes" ++ nl;
      "2. (2024 CD)"; "   Diameter: {:.3f} km"; "   Velocity: {:.2f} km/s";
      "   Impact Energy: {:.1f} megatons"; "   Crater: {:.2f} km diameter";
      "   Severe damage: {:.1f} km radius"; "   Hazardous: No" ++ nl;
      "3. (2024 AB)"; "   Diameter: {:.3f} km"; "   Velocity: {:.2f} km/s";
      "   Impact Energy: {:.1f} megatons"; "   Crater: {:.2f} km diameter";
      "   Severe damage: {:.1f} km radius"; "   Hazardous: No" ++ nl ].
Proof. reflexivity. Qed.

Example feed_overlay_count : List.length (children feed_map) = 15%nat.
Proof. reflexivity. Qed.

Lemma five_overlays_per_neo_witness :
  all_neos_by_size feed = Ok [apophis; twin; pebble]
  /\ @create_impact_map example_builtins feed [] = (Ok feed_map, snd feed_run)
  /\ List.length (children feed_map)
     = (5 * List.length (top10 [apophis; twin; pebble]))%nat
  /\ forall rank neo, nth_error (top10 [apophis; twin; pebble]) rank = Some neo ->
       exists f d effects popup,
         @extract_fields example_builtins neo = Ok f
         /\ as_number (diameter_km f) = Some d
         /\ effects = calculate_impact_effects (Q2R d) (Q2R (velocity_kmps f))
         /\ popup = {| html := @popup_html example_builtins f d effects;
                       max_width := 300 |}
         /\ firstn 5 (skipn (5 * rank) (children feed_map))
            = [ Circle (site_for rank)
                  (py_mul (crater_diameter effects) (PyFloat 500))
                  "darkred" true "red" 0.7%Q (Some popup)
                  (@py_str example_builtins (name f) ++ " - Crater");
                Circle (site_for rank)
                  (py_mul (severe_damage_radius effects) (PyFloat 1000))
                  "orangered" true "orange" 0.4%Q None "Severe Damage Zone";
                Circle (site_for rank)
                  (py_mul (moderate_damage_radius effects) (PyFloat 1000))
                  "yellow" true "yellow" 0.2%Q None "Moderate Damage Zone";
                Circle (site_for rank)
                  (py_mul (light_damage_radius effects) (PyFloat 1000))
                  "lightblue" true "lightblue" 0.1%Q None "Light Damage Zone";
                Marker (site_for rank) popup
                  {| icon_color := if truthy (hazardous f) then "red" else "blue";
                     icon := "meteor";
                     prefix := "fa" |}
                  (@py_str example_builtins (name f)) ].
Proof.
  split; [exact feed_sorted |]. split; [exact feed_run_ok |].
  exact (@five_overlays_per_neo example_builtins feed [apophis; twin; pebble] []
           (snd feed_run) feed_map feed_sorted feed_run_ok).
Defined.

Lemma empty_or_missing_input_witness :
  @create_impact_map example_builtins feed_without_objects []
  = (Ok new_map, [no_data_line])
  /\ @create_impact_map example_builtins feed_of_no_dates []
     = (Ok new_map, [found_line 0]).
Proof.
  split.
  - apply (proj1 (@empty_or_missing_input example_builtins feed_without_objects [])).
    right. eexists. split; reflexivity.
  - apply (proj1 (proj2 (@empty_or_missing_input example_builtins feed_of_no_dates []))
             [("element_count", JNum 0); ("near_earth_objects", JDict [])] []);
      [reflexivity | reflexivity | constructor].
Defined.

(** C7 as stated fails where the objects are missing: a response without the
    key [near_earth_objects] yields no overlay, but the text printed is the
    line [No NEO data available]; the line that states the number of objects
    found, 0, is not printed. *)
Lemma missing_objects_counterexample :
  @create_impact_map example_builtins feed_without_objects []
  = (Ok new_map, ["No NEO data available"])
  /\ ~ In (found_line 0) ["No NEO data available"].
Proof.
  split; [reflexivity |].
  intros [E | []]. discriminate E.
Qed.

End PipelineExamples.

(** * Further laws of the calculator *)

Section CalculatorLaws.

Local Open Scope R_scope.















End CalculatorLaws.

(** * Further laws of the ranking *)

Section RankingLaws.

Import Examples.

Local Open Scope Q_scope.

Lemma combine_map_self {A B : Type} (f : A -> B) (l : list A) :
  combine (map f l) l = map (fun x => (f x, x)) l.
Proof. induction l as [| x l IH]; [reflexivity |]. cbn. now rewrite IH. Qed.

Lemma sort_by_size_numbers (d : json -> Q) (l : list json) :
  (forall neo, In neo l -> sort_key neo = Ok (JNum (d neo))) ->
  sort_by_size l = Ok (map snd (sort_desc Qltb (map (fun neo => (d neo, neo)) l))).
Proof.
  intros Hk.
  assert (Hf : Forall2 (fun neo q => sort_key neo = Ok (JNum q)) l (map d l)).
  { induction l as [| neo l IH]; [constructor |].
    cbn [map]. constructor; [apply Hk; now left |].
    apply IH. intros neo' Hin. apply Hk. now right. }
  unfold sort_by_size. rewrite (mapM_sort_key _ _ Hf). cbn [bind Monad_result].
  rewrite sort_reverse_numbers by now rewrite length_map.
  now rewrite combine_map_self.
Qed.

Lemma filter_perm {A : Type} (P : A -> bool) (l l' : list A) :
  Permutation l l' -> Permutation (filter P l) (filter P l').
Proof.
  induction 1 as [| x l l' _ IH | x y l | l l' l'' _ IH1 _ IH2]; cbn.
  - constructor.
  - destruct (P x); [now constructor | exact IH].
  - destruct (P x), (P y); try reflexivity. apply perm_swap.
  - now transitivity (filter P l').
Qed.

Lemma perm_of_equals {A : Type} (l l' : list A) :
  Permutation l l' -> (forall x y, In x l -> In y l -> x = y) -> l = l'.
Proof.
  induction 1 as [| x l l' _ IH | x y l | l l' l'' P1 IH1 _ IH2]; intros Heq.
  - reflexivity.
  - f_equal. apply IH. intros a b Ha Hb. apply Heq; now right.
  - rewrite (Heq x y); [reflexivity | right; now left | now left].
  - rewrite (IH1 Heq). apply IH2. rewrite <- (IH1 Heq). exact Heq.
Qed.

Lemma sorted_map_keys (d : json -> Q) (l : list json) :
  StronglySorted (fun a b => d b <= d a) l ->
  StronglySorted (fun a b : Q * json => fst b <= fst a) (map (fun neo => (d neo, neo)) l).
Proof.
  induction 1 as [| x l _ IH Hx]; cbn [map]; constructor; [exact IH |].
  rewrite Forall_forall in *. intros p Hp. apply in_map_iff in Hp.
  destruct Hp as (y & <- & Hy). cbn. now apply Hx.
Qed.

Lemma map_snd_keys (d : json -> Q) (l : list json) :
  map snd (map (fun neo => (d neo, neo)) l) = l.
Proof. rewrite map_map. cbn. apply map_id. Qed.

(** X7. When no two different records have the same diameter, the ranking
    does not depend on the order in which the records arrive: two lists with
    the same records are sorted into the same list. *)
Theorem ranking_ignores_arrival_order (l1 l2 : list json) (d : json -> Q) :
  Permutation l1 l2 ->
  (forall neo, In neo l1 -> sort_key neo = Ok (JNum (d neo))) ->
  (forall a b, In a l1 -> In b l1 -> d a == d b -> a = b) ->
  exists by_size, sort_by_size l1 = Ok by_size /\ sort_by_size l2 = Ok by_size.
Proof.
  intros Hperm Hk Hinj.
  assert (Hk2 : forall neo, In neo l2 -> sort_key neo = Ok (JNum (d neo))).
  { intros neo Hin. apply Hk. now apply (Permutation_in _ (Permutation_sym Hperm)). }
  rewrite (sort_by_size_numbers d l1 Hk), (sort_by_size_numbers d l2 Hk2).
  eexists. split; [reflexivity |]. f_equal. f_equal. symmetry.
  set (dec := fun neo : json => (d neo, neo)).
  destruct (sort_desc_stable (map dec l1)) as (_ & Hs1 & Hf1).
  destruct (sort_desc_stable (map dec l2)) as (_ & Hs2 & Hf2).
  apply sorted_filter_unique; try assumption.
  intros q. rewrite Hf1, Hf2.
  apply perm_of_equals; [apply filter_perm, Permutation_map, Hperm |].
  intros x y Hx Hy. apply filter_In in Hx, Hy.
  destruct Hx as (Hx & Hxq), Hy as (Hy & Hyq).
  apply in_map_iff in Hx, Hy.
  destruct Hx as (a & <- & Ha), Hy as (b & <- & Hb).
  apply same_diameter_eq in Hxq, Hyq. cbn in Hxq, Hyq.
  assert (a = b) by (apply Hinj; try assumption; now rewrite Hxq, Hyq).
  now subst b.
Qed.

(** X8. A list whose diameters already never increase is returned by the
    sort as it is: the order of records of equal diameter is not touched. *)
Theorem sorted_input_unchanged (l : list json) (d : json -> Q) :
  (forall neo, In neo l -> sort_key neo = Ok (JNum (d neo))) ->
  StronglySorted (fun a b => d b <= d a) l ->
  sort_by_size l = Ok l.
Proof.
  intros Hk Hs. rewrite (sort_by_size_numbers d l Hk). f_equal.
  set (dec := fun neo : json => (d neo, neo)).
  assert (Hself : stable_sort_desc (map dec l) (map dec l)).
  { split; [reflexivity |]. split; [now apply sorted_map_keys | reflexivity]. }
  rewrite (stable_sort_desc_unique _ _ _ (sort_desc_stable (map dec l)) Hself).
  apply map_snd_keys.
Qed.

End RankingLaws.

(** * Further laws of the map builder *)

Section BuilderLaws.

Context `{Builtins}.

Local Open Scope string_scope.

Lemma mapM_raise {A B : Type} (f : A -> result B) (l : list A) (x : A) (e : exn) :
  In x l -> f x = Raise e -> exists e', mapM f l = Raise e'.
Proof.
  induction l as [| y l IH]; intros Hin Hx; [contradiction |].
  cbn [mapM]. destruct (f y) as [b |] eqn:Ey; [| eexists; reflexivity].
  destruct Hin as [-> | Hin]; [congruence |].
  destruct (IH Hin Hx) as (e' & He'). exists e'. cbn. now rewrite He'.
Qed.

(** The lists of the dates, as [near_earth_objects] holds them. *)
Lemma extend_all_lists (buckets : list (string * list json)) (acc : list json) :
  extend_all (map (fun b => (fst b, JList (snd b))) buckets) acc
  = Ok (acc ++ List.concat (map snd buckets))%list.
Proof.
  revert acc. induction buckets as [| [date objects] rest IH]; intros acc; cbn.
  - now rewrite app_nil_r.
  - rewrite IH. now rewrite <- app_assoc.
Qed.

Lemma sort_by_size_perm (d : json -> Q) (l : list json) :
  (forall neo, In neo l -> sort_key neo = Ok (JNum (d neo))) ->
  exists by_size, sort_by_size l = Ok by_size /\ Permutation by_size l.
Proof.
  intros Hk. rewrite (sort_by_size_numbers d l Hk). eexists. split; [reflexivity |].
  rewrite <- (map_snd_keys d l) at 2.
  apply Permutation_map, sort_desc_perm.
Qed.

Lemma getitem_dict (kvs : list (string * json)) (k : string) (v : json) :
  dict_get k kvs = Some v -> getitem (JDict kvs) k = Ok v.
Proof. intros E. cbn. now rewrite E. Qed.

(** X9. No record is lost or repeated on the way to the ranking: when
    [near_earth_objects] holds a list of records for each date and every
    record has a numeric diameter, the sorted list is a rearrangement of the
    lists of all dates taken together, and the first line the run prints
    reports their total number, whatever happens afterwards. *)
Theorem all_dates_are_ranked (kvs : list (string * json))
  (buckets : list (string * list json)) (d : json -> Q) (out : list string) :
  dict_get "near_earth_objects" kvs
  = Some (JDict (map (fun b => (fst b, JList (snd b))) buckets)) ->
  (forall neo, In neo (List.concat (map snd buckets)) -> sort_key neo = Ok (JNum (d neo))) ->
  exists all_neos outcome printed,
    all_neos_by_size (JDict kvs) = Ok all_neos
    /\ Permutation all_neos (List.concat (map snd buckets))
    /\ create_impact_map (JDict kvs) out
       = (outcome,
          (out ++ found_line (List.length (List.concat (map snd buckets))) :: printed)%list).
Proof.
  intros Hget Hk.
  destruct (sort_by_size_perm d _ Hk) as (by_size & Hsort & Hperm).
  assert (Hall : all_neos_by_size (JDict kvs) = Ok by_size).
  { unfold all_neos_by_size. rewrite (getitem_dict _ _ _ Hget).
    cbn [bind Monad_result items]. rewrite extend_all_lists. cbn [bind Monad_result app].
    exact Hsort. }
  destruct (add_impacts_appends (top10 by_size) 0 new_map) as (outcome & printed & Hrun).
  exists by_size, outcome, printed.
  split; [exact Hall |]. split; [exact Hperm |].
  rewrite (create_impact_map_loop _ _ _ Hall), Hrun.
  rewrite (Permutation_length Hperm), <- app_assoc. reflexivity.
Qed.

(** X10. Every record needs its diameter, also one that would not be among
    the ten largest: when the diameter of any record of any date cannot be
    read, the run raises before anything is printed. *)
Theorem every_record_needs_diameter (kvs buckets : list (string * json))
  (all_neos : list json) (neo : json) (e : exn) (out : list string) :
  dict_get "near_earth_objects" kvs = Some (JDict buckets) ->
  extend_all buckets [] = Ok all_neos ->
  In neo all_neos ->
  sort_key neo = Raise e ->
  exists e', create_impact_map (JDict kvs) out = (Raise e', out).
Proof.
  intros Hget Hext Hin Hkey.
  destruct (mapM_raise sort_key all_neos neo e Hin Hkey) as (e' & Hm).
  exists e'. unfold create_impact_map.
  assert (Hno : no_data (JDict kvs) = Ok false).
  { unfold no_data. destruct kvs as [| kv kvs]; [discriminate Hget |].
    cbn [truthy List.length Nat.eqb negb contains bind Monad_result].
    now rewrite dict_get_contains, Hget. }
  assert (Hall : all_neos_by_size (JDict kvs) = Raise e').
  { unfold all_neos_by_size. rewrite (getitem_dict _ _ _ Hget).
    cbn [bind Monad_result items]. rewrite Hext. cbn [bind Monad_result].
    unfold sort_by_size. now rewrite Hm. }
  rewrite Hno, Hall. reflexivity.
Qed.

(** X11. The guard of line 58 looks for the key only: when
    [near_earth_objects] is present and holds anything but a dictionary
    ([None], a list, a number, a string), the run raises [AttributeError]
    and prints nothing. *)
Theorem objects_must_be_a_dictionary (kvs : list (string * json)) (near : json)
  (out : list string) :
  dict_get "near_earth_objects" kvs = Some near ->
  (forall buckets, near <> JDict buckets) ->
  create_impact_map (JDict kvs) out = (Raise AttributeError, out).
Proof.
  intros Hget Hnot. unfold create_impact_map.
  assert (Hno : no_data (JDict kvs) = Ok false).
  { unfold no_data. destruct kvs as [| kv kvs]; [discriminate Hget |].
    cbn [truthy List.length Nat.eqb negb contains bind Monad_result].
    now rewrite dict_get_contains, Hget. }
  assert (Hall : all_neos_by_size (JDict kvs) = Raise AttributeError).
  { unfold all_neos_by_size. rewrite (getitem_dict _ _ _ Hget).
    cbn [bind Monad_result].
    destruct near as [| b | q | s | l | buckets]; try reflexivity.
    now destruct (Hnot buckets). }
  rewrite Hno, Hall. reflexivity.
Qed.

Lemma add_impacts_report (top_neos : list json) :
  forall idx m out m' out',
    add_impacts idx top_neos m out = (Ok m', out') ->
    exists printed,
      out' = (out ++ printed)%list
      /\ List.length printed = (7 * List.length top_neos)%nat
      /\ forall k neo, nth_error top_neos k = Some neo ->
           exists f d effects,
             extract_fields neo = Ok f
             /\ effects_of f = Ok (d, effects)
             /\ firstn 7 (skipn (7 * k) printed) = report_of (idx + k) f d effects.
Proof.
  induction top_neos as [| neo rest IH]; intros idx m out m' out' Hrun.
  - cbn in Hrun. inversion Hrun; subst. exists []. rewrite app_nil_r.
    repeat split. intros [| k] neo Hk; discriminate.
  - cbn [add_impacts] in Hrun.
    destruct (extract_fields neo) as [f | e] eqn:E1.
    2:{ pose proof (add_impact_raise_extract idx neo m e E1 out) as Hr.
        cbn [bind Monad_io] in Hrun. rewrite Hr in Hrun. discriminate. }
    destruct (effects_of f) as [[d effects] | e] eqn:E2.
    2:{ pose proof (add_impact_raise_effects idx neo m f e E1 E2 out) as Hr.
        cbn [bind Monad_io] in Hrun. rewrite Hr in Hrun. discriminate. }
    pose proof (add_impact_ok idx neo m f d effects E1 E2 out) as Hr.
    cbn [bind Monad_io] in Hrun. rewrite Hr in Hrun.
    apply IH in Hrun. destruct Hrun as (printed & Hout & Hlen & Hnth).
    exists (report_of idx f d effects ++ printed)%list.
    split; [now rewrite Hout, app_assoc |].
    split; [rewrite length_app, Hlen; cbn [List.length report_of]; lia |].
    intros [| k] neo' Hk.
    + cbn in Hk. inversion Hk; subst neo'. exists f, d, effects.
      rewrite Nat.add_0_r. repeat split; assumption.
    + cbn [nth_error] in Hk. destruct (Hnth k neo' Hk) as (f' & d' & e' & F1 & F2 & F3).
      exists f', d', e'. split; [exact F1 |]. split; [exact F2 |].
      replace (idx + S k)%nat with (S idx + k)%nat by lia. rewrite <- F3.
      replace (7 * S k)%nat with (7 + 7 * k)%nat by lia.
      reflexivity.
Qed.

(** X12. The report of a run that ends normally is one line with the number
    of all records, before the cut to ten, and then seven lines for each
    selected record in rank order: its number and name, diameter, velocity,
    energy, crater, severe-damage radius and hazard flag.  It has
    1 + 7 * min(10, L) lines. *)
Theorem report_of_a_run (neo_data : json) (all_neos : list json)
  (out out' : list string) (m : Map) :
  all_neos_by_size neo_data = Ok all_neos ->
  create_impact_map neo_data out = (Ok m, out') ->
  exists printed,
    out' = (out ++ found_line (List.length all_neos) :: printed)%list
    /\ List.length printed = (7 * Nat.min 10 (List.length all_neos))%nat
    /\ forall rank neo, nth_error (top10 all_neos) rank = Some neo ->
         exists f d effects,
           extract_fields neo = Ok f
           /\ as_number (diameter_km f) = Some d
           /\ effects = calculate_impact_effects (Q2R d) (Q2R (velocity_kmps f))
           /\ firstn 7 (skipn (7 * rank) printed)
              = [ str_of_nat (rank + 1) ++ ". " ++ py_str (name f);
                  "   Diameter: " ++ format_number ".3f" (num d) ++ " km";
                  "   Velocity: " ++ format_number ".2f" (num (velocity_kmps f))
                    ++ " km/s";
                  "   Impact Energy: "
                    ++ format_number ".1f" (PyFloat (energy_megatons effects))
                    ++ " megatons";
                  "   Crater: " ++ format_number ".2f" (crater_diameter effects)
                    ++ " km diameter";
                  "   Severe damage: "
                    ++ format_number ".1f" (severe_damage_radius effects)
                    ++ " km radius";
                  "   Hazardous: " ++ (if truthy (hazardous f) then "Yes" else "No")
                    ++ nl ].
Proof.
  intros Hall Hrun. rewrite (create_impact_map_loop _ _ _ Hall) in Hrun.
  apply add_impacts_report in Hrun.
  destruct Hrun as (printed & Hout & Hlen & Hnth).
  exists printed. split; [now rewrite Hout, <- app_assoc |].
  split; [rewrite Hlen; unfold top10; now rewrite length_firstn |].
  intros rank neo Hk. destruct (Hnth rank neo Hk) as (f & d & effects & E1 & E2 & E3).
  unfold effects_of in E2. destruct (as_number (diameter_km f)) as [d' |] eqn:Ed;
    [| discriminate E2].
  inversion E2; subst d' effects.
  exists f, d, (calculate_impact_effects (Q2R d) (Q2R (velocity_kmps f))).
  repeat split; assumption.
Qed.

(** A record the loop can handle, and one it cannot. *)
Lemma add_impacts_fails (good : list json) :
  forall idx (bad : json) (rest : list json) (m : Map) (e : exn) (out : list string),
    Forall (fun neo => exists f de, extract_fields neo = Ok f /\ effects_of f = Ok de)
      good ->
    (extract_fields bad = Raise e
     \/ exists f, extract_fields bad = Ok f /\ effects_of f = Raise e) ->
    exists printed,
      add_impacts idx (good ++ bad :: rest) m out = (Raise e, (out ++ printed)%list)
      /\ List.length printed = (7 * List.length good)%nat.
Proof.
  induction good as [| neo good IH]; intros idx bad rest m e out Hgood Hbad.
  - exists []. rewrite app_nil_r. split; [| reflexivity].
    cbn [app add_impacts bind Monad_io].
    destruct Hbad as [E | (f & E1 & E2)].
    + now rewrite (add_impact_raise_extract idx bad m e E out), app_nil_r.
    + now rewrite (add_impact_raise_effects idx bad m f e E1 E2 out), app_nil_r.
  - inversion Hgood as [| ? ? (f & [d effects] & E1 & E2) Hgood']; subst.
    cbn [app add_impacts bind Monad_io].
    rewrite (add_impact_ok idx neo m f d effects E1 E2 out).
    destruct (IH (S idx) bad rest
                (fold_left (fun acc o => add_to o acc) (overlays_of idx f d effects) m)
                e (out ++ report_of idx f d effects)%list Hgood' Hbad)
      as (printed & Hrun & Hlen).
    exists (report_of idx f d effects ++ printed)%list.
    split; [now rewrite Hrun, app_assoc |].
    rewrite length_app, Hlen. cbn [List.length report_of]. lia.
Qed.

(** X13. A record that cannot be processed stops the run where it stands:
    when the selected records before it are fine and it raises [e], reading
    its fields or in the arithmetic, the run raises [e], no map is returned,
    and what has been printed is the count line and the seven lines of each
    record before it. *)
Theorem run_stops_at_bad_record (neo_data : json) (all_neos good rest : list json)
  (bad : json) (e : exn) (out : list string) :
  all_neos_by_size neo_data = Ok all_neos ->
  top10 all_neos = (good ++ bad :: rest)%list ->
  Forall (fun neo => exists f de, extract_fields neo = Ok f /\ effects_of f = Ok de)
    good ->
  (extract_fields bad = Raise e
   \/ exists f, extract_fields bad = Ok f /\ effects_of f = Raise e) ->
  exists printed,
    create_impact_map neo_data out
    = (Raise e, (out ++ found_line (List.length all_neos) :: printed)%list)
    /\ List.length printed = (7 * List.length good)%nat.
Proof.
  intros Hall Htop Hgood Hbad.
  rewrite (create_impact_map_loop _ _ _ Hall), Htop.
  destruct (add_impacts_fails good 0 bad rest new_map e
              (out ++ [found_line (List.length all_neos)])%list Hgood Hbad)
    as (printed & Hrun & Hlen).
  exists printed. split; [| exact Hlen].
  now rewrite Hrun, <- app_assoc.
Qed.

(** X14. Only the ten largest records and the number of all records reach
    the output: two inputs whose sorted lists have the same first ten
    records and the same length give the same map and print the same
    text, whatever the other records hold besides their diameters. *)
Theorem only_the_ten_largest_matter (data1 data2 : json) (all1 all2 : list json)
  (out : list string) :
  all_neos_by_size data1 = Ok all1 ->
  all_neos_by_size data2 = Ok all2 ->
  top10 all1 = top10 all2 ->
  List.length all1 = List.length all2 ->
  create_impact_map data1 out = create_impact_map data2 out.
Proof.
  intros H1 H2 Htop Hlen.
  rewrite (create_impact_map_loop _ _ _ H1), (create_impact_map_loop _ _ _ H2).
  now rewrite Htop, Hlen.
Qed.

Lemma add_impacts_base (top_neos : list json) :
  forall idx m out m' out',
    add_impacts idx top_neos m out = (Ok m', out') ->
    map_location m' = map_location m /\ zoom_start m' = zoom_start m.
Proof.
  induction top_neos as [| neo rest IH]; intros idx m out m' out' Hrun.
  - cbn in Hrun. inversion Hrun; subst. now split.
  - cbn [add_impacts] in Hrun.
    destruct (extract_fields neo) as [f | e] eqn:E1.
    2:{ pose proof (add_impact_raise_extract idx neo m e E1 out) as Hr.
        cbn [bind Monad_io] in Hrun. rewrite Hr in Hrun. discriminate. }
    destruct (effects_of f) as [[d effects] | e] eqn:E2.
    2:{ pose proof (add_impact_raise_effects idx neo m f e E1 E2 out) as Hr.
        cbn [bind Monad_io] in Hrun. rewrite Hr in Hrun. discriminate. }
    pose proof (add_impact_ok idx neo m f d effects E1 E2 out) as Hr.
    cbn [bind Monad_io] in Hrun. rewrite Hr in Hrun.
    apply IH in Hrun. exact Hrun.
Qed.

(** X15. A run never moves the map: whatever the data, the map that is
    returned is centred on New York (40.7128, -74.0060) at zoom 5, and holds
    at most 50 overlays. *)
Theorem map_base_is_fixed (neo_data : json) (out out' : list string) (m : Map) :
  create_impact_map neo_data out = (Ok m, out') ->
  map_location m = (40.7128, -74.0060)%Q
  /\ zoom_start m = 5%nat
  /\ (List.length (children m) <= 50)%nat.
Proof.
  intros Hrun. unfold create_impact_map in Hrun.
  cbn [bind Monad_io lift] in Hrun.
  destruct (no_data neo_data) as [[|] | e]; [| | discriminate Hrun].
  - cbn in Hrun. inversion Hrun; subst. cbn. repeat split. lia.
  - destruct (all_neos_by_size neo_data) as [all_neos | e]; [| discriminate Hrun].
    cbn [print] in Hrun.
    pose proof (add_impacts_base _ _ _ _ _ _ Hrun) as (Hloc & Hzoom).
    apply add_impacts_children in Hrun.
    destruct Hrun as (added & Hch & Hlen & _).
    rewrite Hloc, Hzoom, Hch. cbn [new_map map_location zoom_start children app].
    repeat split. rewrite Hlen. unfold top10. rewrite length_firstn. lia.
Qed.


(** X17. What reading a record raises besides [KeyError], for a record whose
    name and diameter can be read: [IndexError] when the list of close
    approaches is empty, [ValueError] when the velocity is a string that
    [float] rejects, [TypeError] when the velocity is [None]. *)
Theorem extract_fields_error_kinds (neo n d : json) :
  lookup name_path neo = Ok n ->
  lookup diameter_path neo = Ok d ->
  (getitem neo "close_approach_data" = Ok (JList []) ->
     extract_fields neo = Raise IndexError)
  /\ (forall s, lookup velocity_path neo = Ok (JStr s) -> float_of_str s = None ->
        extract_fields neo = Raise ValueError)
  /\ (lookup velocity_path neo = Ok JNull -> extract_fields neo = Raise TypeError).
Proof.
  intros E1 E2. unfold extract_fields. rewrite E1, E2. cbn [bind Monad_result].
  repeat split.
  - intros Hc. unfold velocity_path. cbn [lookup subscript]. rewrite Hc. reflexivity.
  - intros s Hv Hs. rewrite Hv. cbn [bind Monad_result py_float]. now rewrite Hs.
  - intros Hv. rewrite Hv. reflexivity.
Qed.

End BuilderLaws.

Section SiteLaws.

Local Open Scope Q_scope.

Lemma sites_checked :
  forallb (fun i =>
    forallb (fun j =>
      Nat.eqb i j
      || negb (Qeq_bool (fst (site_for i)) (fst (site_for j))
               && Qeq_bool (snd (site_for i)) (snd (site_for j))))
      (seq 0 10))
    (seq 0 10) = true.
Proof. vm_compute. reflexivity. Qed.

(** X18. No two selected records share a site: at most ten records are
    selected, the record of rank [i] is placed at the [i]-th location, and
    the ten locations are pairwise different. *)
Theorem selected_sites_differ (all_neos : list json) (i j : nat) :
  (i < j < List.length (top10 all_neos))%nat ->
  (List.length (top10 all_neos) <= 10)%nat
  /\ nth_error locations i = Some (site_for i)
  /\ nth_error locations j = Some (site_for j)
  /\ ~ (fst (site_for i) == fst (site_for j) /\ snd (site_for i) == snd (site_for j)).
Proof.
  intros Hij.
  assert (Hlen : (List.length (top10 all_neos) <= 10)%nat).
  { unfold top10. rewrite length_firstn. lia. }
  split; [exact Hlen |].
  assert (Hsite : forall k, (k < 10)%nat -> nth_error locations k = Some (site_for k)).
  { intros k Hk. unfold site_for. rewrite locations_length.
    rewrite Nat.mod_small by exact Hk.
    apply nth_error_nth'. rewrite locations_length. exact Hk. }
  split; [apply Hsite; lia |]. split; [apply Hsite; lia |].
  pose proof sites_checked as Hc. rewrite forallb_forall in Hc.
  specialize (Hc i). rewrite forallb_forall in Hc.
  assert (Hi : In i (seq 0 10)) by (apply in_seq; lia).
  assert (Hj : In j (seq 0 10)) by (apply in_seq; lia).
  specialize (Hc Hi j Hj).
  apply orb_true_iff in Hc. destruct Hc as [Heq | Hne].
  - apply Nat.eqb_eq in Heq. lia.
  - intros [Hlat Hlon]. apply negb_true_iff in Hne.
    apply Qeq_bool_iff in Hlat, Hlon. now rewrite Hlat, Hlon in Hne.
Qed.

End SiteLaws.

(** * Laws of the program *)

Section ProgramLaws.

Context `{Builtins}.

Local Open Scope string_scope.

Lemma printing_appends {A : Type} (c : io A) (r : result A) (text : list string)
  (w : world) :
  appends c r text ->
  printing c w = (r, {| stdout := (stdout w ++ text)%list; saved := saved w |}).
Proof. intros Hc. unfold printing. now rewrite Hc. Qed.

Lemma printing_print (s : string) (w : world) :
  printing (print s) w
  = (Ok tt, {| stdout := (stdout w ++ [s])%list; saved := saved w |}).
Proof. reflexivity. Qed.

Lemma fetch_neo_data_body (o : outside) (data : json) :
  get o NEO_URL
    [ ("start_date", today o); ("end_date", end_date o); ("api_key", NASA_API_KEY) ]
  = Body data ->
  appends (fetch_neo_data o) (Ok data) [].
Proof. intros E. unfold fetch_neo_data. rewrite E. apply appends_ret. Qed.

Lemma fetch_neo_data_failure (o : outside) (message : string) :
  get o NEO_URL
    [ ("start_date", today o); ("end_date", end_date o); ("api_key", NASA_API_KEY) ]
  = Failure message ->
  appends (fetch_neo_data o) (Ok JNull) ["Error fetching data: " ++ message].
Proof.
  intros E. unfold fetch_neo_data. rewrite E.
  change ["Error fetching data: " ++ message]
    with ([("Error fetching data: " ++ message)%string] ++ [])%list.
  eapply appends_bind_ok; [apply appends_print | apply appends_ret].
Qed.

(** What [main] does once the data are there. *)
Lemma main_with (o : outside) (data : json) (text : list string) (w : world) :
  appends (fetch_neo_data o) (Ok data) text ->
  main o w
  = let w1 := {| stdout := (stdout w ++ "Fetching Near Earth Objects from NASA..."
                                       :: text)%list;
                 saved := saved w |} in
    if truthy data then
      match getitem data "element_count" with
      | Raise e => (Raise e, w1)
      | Ok count =>
          match create_impact_map data
                  (stdout w1 ++ [("Total NEO count: " ++ py_str count)%string])%list with
          | (Raise e, out) => (Raise e, {| stdout := out; saved := saved w |})
          | (Ok m, out) =>
              (Ok tt,
               {| stdout :=
                    (out ++ [ (nl ++ "Map saved as '" ++ output_file ++ "'")%string;
                              "Open this file in a web browser to view the interactive map!" ])%list;
                  saved := (saved w ++ [(output_file, m)])%list |})
          end
      end
    else
      (Ok tt, {| stdout := (stdout w1 ++ ["Failed to fetch NEO data"])%list;
                 saved := saved w |}).
Proof.
  intros Hf. unfold main. cbn [bind Monad_prog]. rewrite printing_print.
  rewrite (printing_appends _ _ _ _ Hf). cbn [stdout saved].
  rewrite <- app_assoc. cbn [app].
  destruct (truthy data); [| reflexivity].
  unfold printing at 1. cbn [lift stdout saved].
  destruct (getitem data "element_count") as [count | e]; [| reflexivity].
  rewrite printing_print. cbn [stdout saved].
  unfold printing at 1. cbn [stdout saved].
  destruct (create_impact_map data _) as [[m | e] out]; [| reflexivity].
  cbn [save stdout saved]. rewrite !printing_print. cbn [stdout saved].
  do 2 f_equal. rewrite <- (app_assoc out). reflexivity.
Qed.

Lemma fetch_neo_data_appends (o : outside) :
  exists data text, appends (fetch_neo_data o) (Ok data) text.
Proof.
  destruct (get o NEO_URL
              [ ("start_date", today o); ("end_date", end_date o);
                ("api_key", NASA_API_KEY) ]) as [data | message] eqn:E.
  - exists data, []. now apply fetch_neo_data_body.
  - eexists JNull, _. apply fetch_neo_data_failure. exact E.
Qed.

(** X19. Without data there is no map and no exception: when the request
    fails, whatever the exception, [main] prints the error and
    [Failed to fetch NEO data]; a response whose body is falsy (an empty
    object, an empty list, [null]) is reported as a failed fetch too.
    Nothing is saved in either case. *)
Theorem main_without_data (o : outside) (w : world) :
  (forall message,
     get o NEO_URL
       [ ("start_date", today o); ("end_date", end_date o); ("api_key", NASA_API_KEY) ]
     = Failure message ->
     main o w
     = (Ok tt,
        {| stdout := (stdout w ++ [ "Fetching Near Earth Objects from NASA...";
                                    ("Error fetching data: " ++ message)%string;
                                    "Failed to fetch NEO data" ])%list;
           saved := saved w |}))
  /\ (forall data,
        get o NEO_URL
          [ ("start_date", today o); ("end_date", end_date o);
            ("api_key", NASA_API_KEY) ]
        = Body data ->
        truthy data = false ->
        main o w
        = (Ok tt,
           {| stdout := (stdout w ++ [ "Fetching Near Earth Objects from NASA...";
                                       "Failed to fetch NEO data" ])%list;
              saved := saved w |})).
Proof.
  split.
  - intros message E.
    rewrite (main_with o JNull _ w (fetch_neo_data_failure o message E)).
    cbn [truthy stdout]. now rewrite <- app_assoc.
  - intros data E Hfalsy.
    rewrite (main_with o data _ w (fetch_neo_data_body o data E)), Hfalsy.
    cbn [stdout]. now rewrite <- app_assoc.
Qed.

(** X20. [main] needs [element_count] before anything else: when the body
    is truthy and [element_count] cannot be read from it, [main] raises
    (with [KeyError] for a dictionary without the key) right after its first
    line, even if the objects are all there; no map is built or saved. *)
Theorem main_needs_element_count (o : outside) (w : world) (data : json) (e : exn) :
  get o NEO_URL
    [ ("start_date", today o); ("end_date", end_date o); ("api_key", NASA_API_KEY) ]
  = Body data ->
  truthy data = true ->
  getitem data "element_count" = Raise e ->
  main o w
  = (Raise e,
     {| stdout := (stdout w ++ ["Fetching Near Earth Objects from NASA..."])%list;
        saved := saved w |})
  /\ (forall kvs, data = JDict kvs -> e = KeyError).
Proof.
  intros E Ht Hc. split.
  - rewrite (main_with o data _ w (fetch_neo_data_body o data E)), Ht, Hc. reflexivity.
  - intros kvs ->. cbn in Hc. destruct (dict_get "element_count" kvs); congruence.
Qed.

(** X21. The file holds the map of the builder: when the body is truthy and
    has an [element_count], [main] prints the count, runs the builder, and
    if the builder returns a map saves that very map as
    [neo_impact_map.html] and prints its two closing lines; if the builder
    raises, [main] raises the same exception and saves nothing. *)
Theorem main_saves_the_map (o : outside) (w : world) (data count : json)
  (outcome : result Map) (out : list string) :
  get o NEO_URL
    [ ("start_date", today o); ("end_date", end_date o); ("api_key", NASA_API_KEY) ]
  = Body data ->
  truthy data = true ->
  getitem data "element_count" = Ok count ->
  create_impact_map data
    (stdout w ++ [ "Fetching Near Earth Objects from NASA...";
                   ("Total NEO count: " ++ py_str count)%string ])%list
  = (outcome, out) ->
  main o w
  = match outcome with
    | Ok m =>
        (Ok tt,
         {| stdout :=
              (out ++ [ (nl ++ "Map saved as 'neo_impact_map.html'")%string;
                        "Open this file in a web browser to view the interactive map!" ])%list;
            saved := (saved w ++ [("neo_impact_map.html", m)])%list |})
    | Raise e => (Raise e, {| stdout := out; saved := saved w |})
    end.
Proof.
  intros E Ht Hc Hrun.
  rewrite (main_with o data _ w (fetch_neo_data_body o data E)), Ht, Hc.
  cbn [stdout]. rewrite <- app_assoc. cbn [app]. rewrite Hrun.
  destruct outcome; reflexivity.
Qed.

(** X22. [main] writes at most one file, and none when it fails: after any
    run, either nothing has been saved, or [main] has ended normally and
    exactly one map has been saved, as [neo_impact_map.html]. *)
Theorem main_saves_only_on_success (o : outside) (w : world) :
  saved (snd (main o w)) = saved w
  \/ (fst (main o w) = Ok tt
      /\ exists m, saved (snd (main o w))
                   = (saved w ++ [("neo_impact_map.html", m)])%list).
Proof.
  destruct (fetch_neo_data_appends o) as (data & text & Hf).
  rewrite (main_with o data text w Hf). cbv zeta.
  destruct (truthy data); [| now left].
  destruct (getitem data "element_count") as [count | e]; [| now left].
  destruct (create_impact_map data _) as [[m | e] out]; [| now left].
  right. split; [reflexivity |]. now exists m.
Qed.

End ProgramLaws.

(** * The laws on concrete inputs *)

Section LawExamples.

Import Examples Scenarios.

Local Open Scope string_scope.

Lemma diameters_known (l : list json) :
  forallb (fun neo => match sort_key neo with Ok (JNum _) => true | _ => false end) l
  = true ->
  forall neo, In neo l -> sort_key neo = Ok (JNum (diameter_of neo)).
Proof.
  intros Hall neo Hin. rewrite forallb_forall in Hall. specialize (Hall neo Hin).
  unfold diameter_of. destruct (sort_key neo) as [[| b | q | s | l' | kvs] | e];
    try discriminate Hall. reflexivity.
Qed.

Lemma ranking_ignores_arrival_order_witness :
  exists by_size,
    sort_by_size [pebble; apophis] = Ok by_size
    /\ sort_by_size [apophis; pebble] = Ok by_size.
Proof.
  apply (ranking_ignores_arrival_order [pebble; apophis] [apophis; pebble] diameter_of).
  - apply perm_swap.
  - apply diameters_known. reflexivity.
  - intros a b [<- | [<- | []]] [<- | [<- | []]] Hq; try reflexivity;
      vm_compute in Hq; discriminate Hq.
Defined.

Lemma sorted_input_unchanged_witness :
  sort_by_size [apophis; twin; pebble] = Ok [apophis; twin; pebble].
Proof.
  apply (sorted_input_unchanged [apophis; twin; pebble] diameter_of).
  - apply diameters_known. reflexivity.
  - repeat constructor; vm_compute; discriminate.
Defined.

Lemma all_dates_are_ranked_witness :
  exists all_neos outcome printed,
    all_neos_by_size feed = Ok all_neos
    /\ Permutation all_neos [pebble; apophis; twin]
    /\ @create_impact_map example_builtins feed []
       = (outcome, found_line 3 :: printed).
Proof.
  apply (@all_dates_are_ranked example_builtins
           [ ("element_count", JNum 3);
             ("near_earth_objects",
               JDict [ ("2024-01-01", JList [pebble; apophis]);
                       ("2024-01-02", JList [twin]) ]) ]
           feed_dates diameter_of []).
  - reflexivity.
  - apply diameters_known. reflexivity.
Defined.

Lemma every_record_needs_diameter_witness :
  exists e, @create_impact_map example_builtins (feed_of [apophis; bare]) []
            = (Raise e, []).
Proof.
  apply (@every_record_needs_diameter example_builtins
           [ ("element_count", JNum (inject_Z 2));
             ("near_earth_objects", JDict [ ("2024-01-01", JList [apophis; bare]) ]) ]
           [ ("2024-01-01", JList [apophis; bare]) ]
           [apophis; bare] bare KeyError []).
  - reflexivity.
  - reflexivity.
  - right. now left.
  - reflexivity.
Defined.

Lemma objects_must_be_a_dictionary_witness :
  @create_impact_map example_builtins feed_of_null [] = (Raise AttributeError, []).
Proof.
  apply (@objects_must_be_a_dictionary example_builtins
           [ ("element_count", JNum 0); ("near_earth_objects", JNull) ] JNull []).
  - reflexivity.
  - discriminate.
Defined.

Lemma report_of_a_run_witness :
  exists printed,
    snd feed_run = found_line 3 :: printed
    /\ List.length printed = (7 * Nat.min 10 3)%nat.
Proof.
  destruct (@report_of_a_run example_builtins feed [apophis; twin; pebble] []
              (snd feed_run) feed_map feed_sorted feed_run_ok)
    as (printed & Hout & Hlen & _).
  exists printed. split; assumption.
Defined.

Lemma run_stops_at_bad_record_witness :
  exists printed,
    @create_impact_map example_builtins (feed_of [pebble; nameless; apophis]) []
    = (Raise KeyError, found_line 3 :: printed)
    /\ List.length printed = 7%nat.
Proof.
  apply (@run_stops_at_bad_record example_builtins
           (feed_of [pebble; nameless; apophis]) [apophis; nameless; pebble]
           [apophis] [pebble] nameless KeyError []).
  - reflexivity.
  - reflexivity.
  - constructor; [| constructor]. eexists _, _. split; reflexivity.
  - left. reflexivity.
Defined.

Lemma only_the_ten_largest_matter_witness :
  @create_impact_map example_builtins (feed_of (pebble :: ten_rocks)) []
  = @create_impact_map example_builtins (feed_of (nameless :: ten_rocks)) [].
Proof.
  apply (@only_the_ten_largest_matter example_builtins
           (feed_of (pebble :: ten_rocks)) (feed_of (nameless :: ten_rocks))
           (rev ten_rocks ++ [pebble]) (rev ten_rocks ++ [nameless]) []);
    vm_compute; reflexivity.
Defined.

Lemma map_base_is_fixed_witness :
  map_location feed_map = (40.7128, -74.0060)%Q
  /\ zoom_start feed_map = 5%nat
  /\ (List.length (children feed_map) <= 50)%nat.
Proof.
  exact (@map_base_is_fixed example_builtins feed [] (snd feed_run) feed_map feed_run_ok).
Defined.


Lemma extract_fields_error_kinds_witness :
  @extract_fields example_builtins lonely = Raise IndexError.
Proof.
  apply (@extract_fields_error_kinds example_builtins lonely
           (JStr "(2024 IJ)") (JNum 0.3)); reflexivity.
Defined.

Lemma selected_sites_differ_witness :
  (List.length (top10 [apophis; twin; pebble]) <= 10)%nat
  /\ nth_error locations 0 = Some (site_for 0)
  /\ nth_error locations 2 = Some (site_for 2)
  /\ ~ (fst (site_for 0) == fst (site_for 2) /\ snd (site_for 0) == snd (site_for 2))%Q.
Proof.
  apply (selected_sites_differ [apophis; twin; pebble] 0 2). cbn. lia.
Defined.

Lemma main_without_data_witness :
  @main example_builtins (outside_of (Failure "timed out")) nothing_yet
  = (Ok tt,
     {| stdout := [ "Fetching Near Earth Objects from NASA...";
                    "Error fetching data: timed out";
                    "Failed to fetch NEO data" ];
        saved := [] |})
  /\ @main example_builtins (outside_of (Body (JDict []))) nothing_yet
     = (Ok tt,
        {| stdout := [ "Fetching Near Earth Objects from NASA...";
                       "Failed to fetch NEO data" ];
           saved := [] |}).
Proof.
  split.
  - apply (proj1 (@main_without_data example_builtins
                    (outside_of (Failure "timed out")) nothing_yet)).
    reflexivity.
  - apply (proj2 (@main_without_data example_builtins
                    (outside_of (Body (JDict []))) nothing_yet) (JDict []));
      reflexivity.
Defined.

Lemma main_needs_element_count_witness :
  @main example_builtins (outside_of (Body feed_uncounted)) nothing_yet
  = (Raise KeyError,
     {| stdout := ["Fetching Near Earth Objects from NASA..."]; saved := [] |})
  /\ (forall kvs, feed_uncounted = JDict kvs -> KeyError = KeyError).
Proof.
  apply (@main_needs_element_count example_builtins
           (outside_of (Body feed_uncounted)) nothing_yet feed_uncounted KeyError);
    reflexivity.
Defined.

Lemma main_saves_the_map_witness :
  exists m out,
    @main example_builtins (outside_of (Body feed)) nothing_yet
    = (Ok tt,
       {| stdout :=
            (out ++ [ (nl ++ "Map saved as 'neo_impact_map.html'")%string;
                      "Open this file in a web browser to view the interactive map!" ])%list;
          saved := [("neo_impact_map.html", m)] |})
    /\ List.length (children m) = 15%nat.
Proof.
  pose (run := @create_impact_map example_builtins feed
                 [ "Fetching Near Earth Objects from NASA...";
                   "Total NEO count: <object>" ]).
  pose (m := match fst run with Ok m => m | Raise _ => new_map end).
  assert (Hrun : run = (Ok m, snd run)) by reflexivity.
  exists m, (snd run). split; [| reflexivity].
  exact (@main_saves_the_map example_builtins (outside_of (Body feed)) nothing_yet
           feed (JNum 3) (Ok m) (snd run) eq_refl eq_refl eq_refl Hrun).
Defined.

End LawExamples.
